(** * PicoSWITool: the single-wire protocol engine and its session operations

    A shallow embedding of [swi_tool.c]: the bit/byte protocol primitives that
    run on core 1, the FIFO envelope between the two cores, and the session
    operations of core 0 ([read_mfr_id], [load_address], [read_eeprom],
    [verified_read], [read_block]), together with the key test [jsoneq] of the
    command parser and the line reader of [main].

    C integers are modelled as [Z].  A [uint8_t] is a [Z] in [0, 256); every
    place where the C code converts an [int] expression to [uint8_t] is written
    out with [u8].  The bus is modelled as a world that records what the
    firmware does to the line and supplies the level found at every sample. *)

From Stdlib Require Import ZArith Zbitwise List Lia Bool.
From stdpp Require Import base list.
Import ListNotations.

Local Open Scope Z_scope.

(** ** Machine integers *)

(** Conversion to [uint8_t]. *)
Definition u8 (x : Z) : Z := Z.land x 0xFF.

(** Conversion to [uint32_t]. *)
Definition u32 (x : Z) : Z := Z.land x 0xFFFFFFFF.

(** ** Constants of the source *)

Definition TX_BYTE : Z := 0x01.
Definition DISCOVERY : Z := 0x02.
Definition RX_BYTE : Z := 0x03.

Definition SEND_ACK : Z := 0.
Definition SEND_NACK : Z := 1.

Definition T_PRUSA_LOW1_US : Z := 2.
Definition T_PRUSA_LOW0_US : Z := 10.
Definition T_PRUSA_RD_US : Z := 1.
Definition T_PRUSA_MRS_US : Z := 1.
Definition T_PRUSA_BIT_US : Z := 25.

Definition time_rd : Z := T_PRUSA_RD_US.
Definition time_mrs : Z := T_PRUSA_MRS_US.
Definition time_low1 : Z := T_PRUSA_LOW1_US.
Definition time_low0 : Z := T_PRUSA_LOW0_US.
Definition tx_one_btime : Z := T_PRUSA_BIT_US - T_PRUSA_LOW1_US.
Definition tx_zero_btime : Z := T_PRUSA_BIT_US - T_PRUSA_LOW0_US.
Definition rd_btime : Z := T_PRUSA_BIT_US - T_PRUSA_RD_US - T_PRUSA_MRS_US.

Definition OPCODE_EEPROM_ACCESS : Z := 0xA0.
Definition OPCODE_MANUFACTURER_ID : Z := 0xC0.
Definition RW_BIT : Z := 0x01.

(** ** The bus *)

(** What the firmware does, in program order.  [Low] and [High] are the two
    directions of the open-drain pin ([sio_set_low], [sio_set_high]),
    [Sample b] is one [sio_get_value] that found level [b], [Delay us] one
    [soft_delay_us], and [IrqOff]/[IrqOn] bracket the critical section of
    core 1. *)
Inductive event : Type :=
  | Low
  | High
  | Sample (level : bool)
  | Delay (us : Z)
  | IrqOff
  | IrqOn.

(** [line] holds the levels the line will show at the coming samples (what the
    device on the other end does); [trace] is the history, oldest first. *)
Record world : Type := mkWorld {
  line : list bool;
  trace : list event
}.

(** ** A state monad over the world *)

Definition M (A : Type) : Type := world -> A * world.

Definition ret {A : Type} (a : A) : M A := fun w => (a, w).

Definition bind {A B : Type} (c : M A) (k : A -> M B) : M B :=
  fun w => let (a, w') := c w in k a w'.

Notation "x <- c ;; k" := (bind c (fun x => k))
  (at level 100, c at next level, right associativity).
Notation "c ;; k" := (bind c (fun _ => k))
  (at level 100, right associativity).

Definition emit (e : event) : M unit :=
  fun w => (tt, mkWorld (line w) (trace w ++ [e])).

(** ** Bus line driver *)

Definition sio_set_high : M unit := emit High.

Definition sio_set_low : M unit := emit Low.

(** A released line with nobody pulling it down reads high (pull-up). *)
Definition sio_get_value : M Z :=
  fun w =>
    match line w with
    | [] => (1, mkWorld [] (trace w ++ [Sample true]))
    | b :: l => (Z.b2z b, mkWorld l (trace w ++ [Sample b]))
    end.

Definition soft_delay_us (us : Z) : M unit := emit (Delay us).

(** ** Bit/byte protocol engine (core 1) *)

Definition discovery_response : M Z :=
  sio_set_high ;;
  soft_delay_us 200 ;;
  sio_set_low ;;
  soft_delay_us 150 ;;
  sio_set_high ;;
  soft_delay_us 100 ;;
  sio_set_low ;;
  soft_delay_us 1 ;;
  sio_set_high ;;
  soft_delay_us 3 ;;
  v <- sio_get_value ;;
  let temp := if v =? 0 then 0x00 else 0xFF in
  soft_delay_us 150 ;;
  ret temp.

Definition tx_one : M unit :=
  sio_set_low ;;
  soft_delay_us time_low1 ;;
  sio_set_high ;;
  soft_delay_us tx_one_btime.

Definition tx_zero : M unit :=
  sio_set_low ;;
  soft_delay_us time_low0 ;;
  sio_set_high ;;
  soft_delay_us tx_zero_btime.

Definition read_bit : M Z :=
  sio_set_low ;;
  soft_delay_us time_rd ;;
  sio_set_high ;;
  soft_delay_us time_mrs ;;
  v <- sio_get_value ;;
  let temp := Z.land v 0x01 in
  soft_delay_us rd_btime ;;
  sio_set_high ;;
  ret temp.

Definition ack_nack : M Z :=
  b <- read_bit ;;
  ret (if b =? 0 then 0x00 else 0xFF).

Definition stop_con : M unit := soft_delay_us 500.

(** The [for] loop of [tx_byte], [n] iterations left. *)
Fixpoint tx_byte_loop (n : nat) (data_byte : Z) : M unit :=
  match n with
  | O => ret tt
  | S n' =>
      (if Z.land data_byte 0x80 =? 0 then tx_zero else tx_one) ;;
      tx_byte_loop n' (u8 (Z.shiftl data_byte 1))
  end.

Definition tx_byte (data_byte : Z) : M Z :=
  tx_byte_loop 8 data_byte ;;
  ack_nack.

(** The [for] loop of [read_byte], [n] iterations left. *)
Fixpoint read_byte_loop (n : nat) (data_byte : Z) : M Z :=
  match n with
  | O => ret data_byte
  | S n' =>
      temp <- read_bit ;;
      read_byte_loop n' (u8 (Z.lor (Z.shiftl data_byte 1) temp))
  end.

Definition read_byte (ack : Z) : M Z :=
  data_byte <- read_byte_loop 8 0 ;;
  (if ack =? 0 then tx_zero else tx_one) ;;
  ret data_byte.

Definition rx_byte (ack : Z) : M Z := read_byte ack.

(** ** Real-time executor and command channel *)

(** The two fields core 1 decodes from a popped FIFO word:
    [(item >> 24) & 0xFF] and [item & 0xFF]. *)
Definition item_cmd (item : Z) : Z := Z.land (Z.shiftr item 24) 0xFF.

Definition item_data (item : Z) : Z := Z.land item 0xFF.

(** One turn of the [while (true)] loop of [core1_entry], from the popped FIFO
    word to the pushed result.  The pin set-up that precedes the loop runs
    once and leaves the line released. *)
Definition core1_entry_step (item : Z) : M Z :=
  let cmd := item_cmd item in
  let data := item_data item in
  emit IrqOff ;;
  ack <- (if cmd =? TX_BYTE then tx_byte data
          else if cmd =? DISCOVERY then discovery_response
          else if cmd =? RX_BYTE then rx_byte data
          else ret 0xFF) ;;
  emit IrqOn ;;
  ret ack.

(** The word [send_cmd] pushes: [(cmd << 24) | data] as a [uint32_t]. *)
Definition envelope (cmd data : Z) : Z := u32 (Z.lor (Z.shiftl cmd 24) data).

(** Core 0 pushes the envelope and blocks until core 1 has pushed the result,
    so one call is one turn of the executor. *)
Definition send_cmd (cmd data : Z) : M Z :=
  ack <- core1_entry_step (envelope cmd data) ;;
  ret (u8 ack).

(** ** Session operations (core 0) *)

Definition read_mfr_id (dev_addr : Z) : M Z :=
  let id := 0 in
  ack <- send_cmd DISCOVERY 0 ;;
  if ack =? 0 then
    ack <- send_cmd TX_BYTE (u8 (Z.lor (Z.lor OPCODE_MANUFACTURER_ID dev_addr) RW_BIT)) ;;
    if ack =? 0 then
      b1 <- send_cmd RX_BYTE SEND_ACK ;;
      let id := u32 (Z.lor id (Z.shiftl b1 16)) in
      b2 <- send_cmd RX_BYTE SEND_ACK ;;
      let id := u32 (Z.lor id (Z.shiftl b2 8)) in
      b3 <- send_cmd RX_BYTE SEND_NACK ;;
      let id := u32 (Z.lor id (Z.shiftl b3 0)) in
      ret id
    else ret id
  else ret id.

Definition load_address (dev_addr data_addr : Z) : M Z :=
  if data_addr >? 128 then ret (-1)
  else
    ack <- send_cmd TX_BYTE (u8 (Z.lor (Z.lor OPCODE_EEPROM_ACCESS dev_addr) 0)) ;;
    if negb (ack =? 0) then ret (-2)
    else
      ack <- send_cmd TX_BYTE data_addr ;;
      if negb (ack =? 0) then ret (-3)
      else ret 1.

Definition read_eeprom (dev_addr data_addr : Z) : M Z :=
  res <- load_address dev_addr data_addr ;;
  if res <? 0 then ret (res - 5)
  else
    stop_con ;;
    ack <- send_cmd TX_BYTE (u8 (Z.lor (Z.lor OPCODE_EEPROM_ACCESS dev_addr) RW_BIT)) ;;
    if negb (ack =? 0) then ret (-5)
    else
      data <- send_cmd RX_BYTE SEND_NACK ;;
      stop_con ;;
      ret data.

Definition verified_read (dev_addr data_addr : Z) : M Z :=
  d0 <- read_eeprom dev_addr data_addr ;;
  d1 <- read_eeprom dev_addr data_addr ;;
  if d0 =? d1 then ret d0
  else
    d2 <- read_eeprom dev_addr data_addr ;;
    if d1 =? d2 then ret d1
    else if d2 =? d0 then ret d2
    else ret (-1).

(** The [for] loop of [read_block]: [n] iterations left, [i] the loop counter.
    The buffer is the caller's array; it is at least [len] long there, and a
    store past its end (undefined in C) leaves the list as it is. *)
Fixpoint read_block_loop (n : nat) (dev_addr data_addr i : Z) (buffer : list Z)
  : M (Z * list Z) :=
  match n with
  | O => ret (1, buffer)
  | S n' =>
      res <- verified_read dev_addr (u8 (data_addr + i)) ;;
      if res <? 0 then ret (-3, buffer)
      else read_block_loop n' dev_addr data_addr (i + 1)
             (<[Z.to_nat i := u8 res]> buffer)
  end.

(** [data_addr + len] is an [int] sum of two promoted [uint8_t]: no wrap. *)
Definition read_block (dev_addr data_addr : Z) (buffer : list Z) (len : Z)
  : M (Z * list Z) :=
  if data_addr + len >? 128 then ret (-1, buffer)
  else
    ack <- send_cmd DISCOVERY 0 ;;
    if negb (ack =? 0) then ret (-2, buffer)
    else read_block_loop (Z.to_nat len) dev_addr data_addr 0 buffer.

(** ** Observations on the world, used to state what the code does *)

(** The level the next sample finds. *)
Definition level_now (w : world) : bool :=
  match line w with
  | [] => true
  | b :: _ => b
  end.

(** The code [ack_nack] and [discovery_response] make of a sampled level. *)
Definition ack_of_level (b : bool) : Z := if b then 0xFF else 0x00.

(** The waveform of one transmitted bit ([tx_one] for [true]). *)
Definition tx_slot (b : bool) : list event :=
  if b then [Low; Delay time_low1; High; Delay tx_one_btime]
  else [Low; Delay time_low0; High; Delay tx_zero_btime].

(** The waveform of one read slot that found level [b]. *)
Definition read_slot (b : bool) : list event :=
  [Low; Delay time_rd; High; Delay time_mrs; Sample b; Delay rd_btime; High].

(** The waveform of the discovery handshake that found level [b]. *)
Definition discovery_slot (b : bool) : list event :=
  [High; Delay 200; Low; Delay 150; High; Delay 100; Low; Delay 1; High;
   Delay 3; Sample b; Delay 150].

(** The world after the firmware did [evs], [n] samples among them. *)
Definition took (n : nat) (evs : list event) (w : world) : world :=
  mkWorld (drop n (line w)) (trace w ++ evs).

(** The levels [n] successive samples find on a line whose coming levels are
    [l]; past the end of [l] the pull-up shows. *)
Fixpoint levels_of (n : nat) (l : list bool) : list bool :=
  match n with
  | O => []
  | S n' => hd true l :: levels_of n' (tl l)
  end.

(** The levels the next [n] samples find. *)
Definition levels (n : nat) (w : world) : list bool := levels_of n (line w).

(** The bits of a byte, most significant first. *)
Definition msb_first (v : Z) : list bool :=
  map (Z.testbit v) [7; 6; 5; 4; 3; 2; 1; 0].

(** What a receiver on the line decodes from a waveform: a low pulse of
    [time_low1] is a one, a low pulse of [time_low0] a zero; the short pulse
    that opens a read slot carries no bit. *)
Fixpoint wire_bits (t : list event) : list bool :=
  match t with
  | [] => []
  | Low :: t1 =>
      match t1 with
      | Delay d :: _ =>
          if d =? time_low1 then true :: wire_bits t1
          else if d =? time_low0 then false :: wire_bits t1
          else wire_bits t1
      | _ => wire_bits t1
      end
  | _ :: t1 => wire_bits t1
  end.

(** The byte [read_byte] builds from the levels of its eight read slots. *)
Definition byte_of (bits : list bool) : Z :=
  fold_left (fun acc b => u8 (Z.lor (Z.shiftl acc 1) (Z.b2z b))) bits 0.

(** The bits the loop of [tx_byte] puts on the line in [n] iterations. *)
Fixpoint shifted_out (n : nat) (data_byte : Z) : list bool :=
  match n with
  | O => []
  | S n' =>
      negb (Z.land data_byte 0x80 =? 0)
      :: shifted_out n' (u8 (Z.shiftl data_byte 1))
  end.

(** A bounded check over all bytes. *)
Definition all_u8 (P : Z -> bool) : bool :=
  forallb P (map Z.of_nat (seq 0 256)).

(** The world in which iteration [k] of the loop of [read_block] starts, when
    the loop was entered in [w] and the iterations before [k] went through. *)
Fixpoint loop_world (k : nat) (dev_addr data_addr : Z) (w : world) : world :=
  match k with
  | O => w
  | S k' =>
      snd (verified_read dev_addr (u8 (data_addr + Z.of_nat k'))
             (loop_world k' dev_addr data_addr w))
  end.

(** What [verified_read] returns in iteration [k] of that loop. *)
Definition loop_read (k : nat) (dev_addr data_addr : Z) (w : world) : Z :=
  fst (verified_read dev_addr (u8 (data_addr + Z.of_nat k))
         (loop_world k dev_addr data_addr w)).

(** ** A simulated device, for concrete runs *)

(** The levels a device shows during one [read_eeprom] when it acknowledges
    the three transmitted bytes and answers with the byte [v]. *)
Definition answer (v : Z) : list bool := [false; false; false] ++ msb_first v.

(** A device that answers successive [read_eeprom] calls with [vs]. *)
Definition sampling (vs : list Z) : world := mkWorld (flat_map answer vs) [].

(** A 128-byte array whose cell [a] holds [(7 * a + 3) mod 256]. *)
Definition cell (a : Z) : Z := (7 * a + 3) mod 256.

(** A device that acknowledges discovery and then serves a block read of
    [n] cells from [start], every cell read twice and found stable. *)
Definition serving (start : Z) (n : nat) : world :=
  mkWorld
    (false :: flat_map (fun k => answer (cell (start + Z.of_nat k))
                                 ++ answer (cell (start + Z.of_nat k)))
                       (seq 0 n))
    [].

(** A device that acknowledges discovery and the manufacturer-ID opcode and
    then sends the three bytes [b1], [b2], [b3]. *)
Definition identifying (b1 b2 b3 : Z) : world :=
  mkWorld ([false; false] ++ msb_first b1 ++ msb_first b2 ++ msb_first b3) [].

(** ** Observations on traces *)


(** Whether the pin is released (an input, left to the pull-up) after [t],
    [before] telling whether it was released before [t]. *)
Fixpoint pin_released (before : bool) (t : list event) : bool :=
  match t with
  | [] => before
  | Low :: t' => pin_released false t'
  | High :: t' => pin_released true t'
  | Sample _ :: t' => pin_released true t'
  | _ :: t' => pin_released before t'
  end.

(** The interrupt discipline of a trace: [off] tells whether interrupts are
    disabled when it starts.  The result is [None] when the pin is touched
    with interrupts enabled or when the disable/restore calls do not
    alternate, and otherwise tells whether interrupts are disabled at the
    end. *)
Fixpoint irq_check (off : bool) (t : list event) : option bool :=
  match t with
  | [] => Some off
  | IrqOff :: t' => if off then None else irq_check true t'
  | IrqOn :: t' => if off then irq_check false t' else None
  | Delay _ :: t' => irq_check off t'
  | _ :: t' => if off then irq_check off t' else None
  end.

(** A stretch of activity that starts and ends with interrupts enabled,
    touches the pin only in between with interrupts disabled, and leaves the
    pin released. *)
Definition orderly (evs : list event) : Prop :=
  irq_check false evs = Some false /\ pin_released true evs = true.

(** A computation that only adds an orderly stretch to the trace. *)
Definition keeps_order {A : Type} (c : M A) : Prop :=
  forall w, exists evs, trace (snd (c w)) = trace w ++ evs /\ orderly evs.

(** What one executor turn for [TX_BYTE] adds to the trace when the ack slot
    finds level [b]. *)
Definition tx_turn (d : Z) (b : bool) : list event :=
  IrqOff :: flat_map tx_slot (msb_first d) ++ read_slot b ++ [IrqOn].

(** What one executor turn for [RX_BYTE] adds to the trace when the read slots
    find [bits] and the closing bit is [closing]. *)
Definition rx_turn (bits : list bool) (closing : bool) : list event :=
  IrqOff :: flat_map read_slot bits ++ tx_slot closing ++ [IrqOn].



(** ** The JSON key test *)

(** The token kinds and the token record of the jsmn parser, of which
    [jsoneq] reads the kind and the two offsets. *)
Inductive jsmntype_t : Type :=
  | JSMN_UNDEFINED
  | JSMN_OBJECT
  | JSMN_ARRAY
  | JSMN_STRING
  | JSMN_PRIMITIVE.

Record jsmntok_t : Type := mkTok {
  tok_type : jsmntype_t;
  tok_start : Z;
  tok_end : Z
}.

Definition is_JSMN_STRING (t : jsmntype_t) : bool :=
  match t with
  | JSMN_STRING => true
  | _ => false
  end.

(** A C string is the list of its characters before the terminator; reading
    at its end yields the terminator 0. *)
Definition strlen (s : list Z) : Z := Z.of_nat (length s).

(** [strncmp] of the C library: compares at most [n] characters and stops at
    a difference or at the terminator. *)
Fixpoint strncmp (a b : list Z) (n : nat) : Z :=
  match n with
  | O => 0
  | S n' =>
      let c1 := hd 0 a in
      let c2 := hd 0 b in
      if c1 =? c2 then
        if c1 =? 0 then 0 else strncmp (tl a) (tl b) n'
      else c1 - c2
  end.

(** [json + tok->start] is the text from offset [tok_start] on. *)
Definition jsoneq (json : list Z) (tok : jsmntok_t) (s : list Z) : Z :=
  if is_JSMN_STRING (tok_type tok)
     && (strlen s =? tok_end tok - tok_start tok)
     && (strncmp (drop (Z.to_nat (tok_start tok)) json) s
           (Z.to_nat (tok_end tok - tok_start tok)) =? 0)
  then 0
  else -1.

(** ** The line reader of [main] *)

Definition BUFFER_SIZE : Z := 256.

(** The state of the loop of [main]: the line buffer and its write index,
    the characters echoed, the LED, and the command lines handed to
    [handle_command] so far. *)
Record reader : Type := mkReader {
  rd_buffer : list Z;
  rd_index : Z;
  rd_echoed : list Z;
  rd_led : bool;
  rd_handled : list (list Z)
}.

(** The C string that starts at the first cell of a buffer: what
    [handle_command] sees of it. *)
Fixpoint c_string (cells : list Z) : list Z :=
  match cells with
  | [] => []
  | c :: cells' => if c =? 0 then [] else c :: c_string cells'
  end.

(** One turn of the [while (true)] loop of [main]; [ch] is what
    [getchar_timeout_us] returned and [PICO_ERROR_TIMEOUT] the SDK's code for
    no character.  The stored character is [(char)ch], an unsigned byte on
    this target. *)
Definition main_step (PICO_ERROR_TIMEOUT ch : Z) (st : reader) : reader :=
  let st1 :=
    if negb (ch =? PICO_ERROR_TIMEOUT) then
      let echoed := rd_echoed st ++ [ch] in
      if (ch =? 10) || (ch =? 13) then
        let buffer := <[Z.to_nat (rd_index st) := 0]> (rd_buffer st) in
        if rd_index st >? 0 then
          mkReader buffer 0 echoed (rd_led st)
                   (rd_handled st ++ [c_string buffer])
        else mkReader buffer (rd_index st) echoed (rd_led st) (rd_handled st)
      else if rd_index st <? BUFFER_SIZE - 1 then
        mkReader (<[Z.to_nat (rd_index st) := u8 ch]> (rd_buffer st))
                 (rd_index st + 1) echoed (rd_led st) (rd_handled st)
      else mkReader (rd_buffer st) (rd_index st) echoed (rd_led st)
                    (rd_handled st)
    else st in
  mkReader (rd_buffer st1) (rd_index st1) (rd_echoed st1) (negb (rd_led st1))
           (rd_handled st1).

(** The loop run over the successive results of [getchar_timeout_us]. *)
Definition main_loop (PICO_ERROR_TIMEOUT : Z) (chs : list Z) (st : reader)
  : reader :=
  fold_left (fun st ch => main_step PICO_ERROR_TIMEOUT ch st) chs st.

(** The characters among the results of [getchar_timeout_us]. *)
Definition typed (PICO_ERROR_TIMEOUT : Z) (chs : list Z) : list Z :=
  filter (fun ch => ch <> PICO_ERROR_TIMEOUT) chs.

(** The state the loop keeps its buffer in: full size, index within it and
    short of the last cell. *)
Definition reader_ok (st : reader) : Prop :=
  length (rd_buffer st) = 256%nat /\ 0 <= rd_index st <= 255.

(** ** Basic equations of the primitives *)

Lemma all_u8_spec (P : Z -> bool) :
  all_u8 P = true -> forall v, 0 <= v < 256 -> P v = true.
Proof.
  unfold all_u8. intros H v Hv.
  rewrite forallb_forall in H. apply H.
  apply in_map_iff. exists (Z.to_nat v). split; [lia|].
  apply in_seq. lia.
Qed.

Lemma u8_range (x : Z) : 0 <= u8 x < 256.
Proof.
  unfold u8. change 0xFF with (Z.ones 8).
  rewrite Z.land_ones by lia. apply Z.mod_pos_bound. reflexivity.
Qed.

Lemma u8_small (x : Z) : 0 <= x < 256 -> u8 x = x.
Proof.
  intros H. unfold u8. change 0xFF with (Z.ones 8).
  rewrite Z.land_ones by lia. apply Z.mod_small. exact H.
Qed.

Lemma took_took (n m : nat) (a b : list event) (w : world) :
  took m b (took n a w) = took (n + m) (a ++ b) w.
Proof. unfold took. simpl. now rewrite drop_drop, <- app_assoc. Qed.

Lemma took_nothing (w : world) : took 0 [] w = w.
Proof. destruct w. unfold took. simpl. now rewrite app_nil_r. Qed.

Lemma level_now_took0 (a : list event) (w : world) :
  level_now (took 0 a w) = level_now w.
Proof. reflexivity. Qed.

(** Unfolds a straight-line sequence of line-driver calls. *)
Ltac run_prims :=
  unfold bind, sio_set_low, sio_set_high, soft_delay_us, emit, ret, took;
  simpl; rewrite <- ?app_assoc; simpl.

Lemma sio_get_value_eq (w : world) :
  sio_get_value w = (Z.b2z (level_now w), took 1 [Sample (level_now w)] w).
Proof.
  unfold sio_get_value, level_now, took. destruct (line w); reflexivity.
Qed.

Lemma tx_one_eq (w : world) : tx_one w = (tt, took 0 (tx_slot true) w).
Proof. unfold tx_one. now run_prims. Qed.

Lemma tx_zero_eq (w : world) : tx_zero w = (tt, took 0 (tx_slot false) w).
Proof. unfold tx_zero. now run_prims. Qed.

Lemma read_bit_eq (w : world) :
  read_bit w = (Z.b2z (level_now w), took 1 (read_slot (level_now w)) w).
Proof.
  unfold read_bit, sio_get_value, level_now. run_prims.
  destruct (line w) as [|[] l]; simpl; rewrite <- ?app_assoc; reflexivity.
Qed.

Lemma ack_nack_eq (w : world) :
  ack_nack w = (ack_of_level (level_now w), took 1 (read_slot (level_now w)) w).
Proof.
  unfold ack_nack, bind. rewrite read_bit_eq.
  destruct (level_now w); reflexivity.
Qed.

Lemma discovery_response_eq (w : world) :
  discovery_response w =
  (ack_of_level (level_now w), took 1 (discovery_slot (level_now w)) w).
Proof.
  unfold discovery_response, sio_get_value, level_now. run_prims.
  destruct (line w) as [|[] l]; simpl; rewrite <- ?app_assoc; reflexivity.
Qed.

Lemma levels_S (n : nat) (w : world) (evs : list event) :
  levels (S n) w = level_now w :: levels n (took 1 evs w).
Proof.
  unfold levels, level_now, took. simpl. destruct (line w); reflexivity.
Qed.

Lemma tx_byte_loop_eq (n : nat) (d : Z) (w : world) :
  tx_byte_loop n d w = (tt, took 0 (flat_map tx_slot (shifted_out n d)) w).
Proof.
  revert d w. induction n as [|n IH]; intros d w; simpl.
  - unfold ret. now rewrite took_nothing.
  - unfold bind.
    destruct (Z.land d 128 =? 0);
      rewrite ?tx_zero_eq, ?tx_one_eq, IH, took_took; reflexivity.
Qed.

Lemma read_byte_loop_eq (n : nat) (acc : Z) (w : world) :
  read_byte_loop n acc w =
  (fold_left (fun a b => u8 (Z.lor (Z.shiftl a 1) (Z.b2z b))) (levels n w) acc,
   took n (flat_map read_slot (levels n w)) w).
Proof.
  revert acc w. induction n as [|n IH]; intros acc w.
  - simpl. unfold ret. now rewrite took_nothing.
  - rewrite (levels_S n w (read_slot (level_now w))).
    cbn [read_byte_loop fold_left flat_map]. unfold bind.
    rewrite read_bit_eq, IH, took_took. reflexivity.
Qed.

Lemma tx_byte_eq (d : Z) (w : world) :
  tx_byte d w =
  (ack_of_level (level_now w),
   took 1 (flat_map tx_slot (shifted_out 8 d) ++ read_slot (level_now w)) w).
Proof.
  unfold tx_byte, bind. rewrite tx_byte_loop_eq, ack_nack_eq, took_took.
  reflexivity.
Qed.

Lemma read_byte_eq (ack : Z) (w : world) :
  read_byte ack w =
  (byte_of (levels 8 w),
   took 8 (flat_map read_slot (levels 8 w) ++ tx_slot (negb (ack =? 0))) w).
Proof.
  unfold read_byte, bind. rewrite read_byte_loop_eq.
  destruct (ack =? 0); rewrite ?tx_zero_eq, ?tx_one_eq, took_took; reflexivity.
Qed.

Lemma shifted_out_msb_first (v : Z) :
  0 <= v < 256 -> shifted_out 8 v = msb_first v.
Proof.
  intros Hv.
  pose proof (all_u8_spec
                (fun x => bool_decide (shifted_out 8 x = msb_first x))) as H.
  cbv beta in H. eapply bool_decide_eq_true_1, H; [|exact Hv].
  vm_compute. reflexivity.
Qed.

Lemma byte_of_msb_first (v : Z) : 0 <= v < 256 -> byte_of (msb_first v) = v.
Proof.
  intros Hv. apply Z.eqb_eq.
  apply (all_u8_spec (fun x => byte_of (msb_first x) =? x));
    [vm_compute; reflexivity | exact Hv].
Qed.

Lemma wire_bits_tx_slots (bits : list bool) (t : list event) :
  wire_bits (flat_map tx_slot bits ++ t) = bits ++ wire_bits t.
Proof.
  induction bits as [|b bits IH]; [reflexivity|].
  cbn [flat_map]. rewrite <- app_assoc.
  destruct b; cbn; now rewrite IH.
Qed.

Lemma wire_bits_read_slot (b : bool) : wire_bits (read_slot b) = [].
Proof. reflexivity. Qed.

Lemma levels_app (bits rest : list bool) (tr : list event) :
  levels (length bits) (mkWorld (bits ++ rest) tr) = bits.
Proof.
  unfold levels. simpl. induction bits as [|b bits IH]; [reflexivity|].
  simpl. now rewrite IH.
Qed.

Lemma msb_first_byte_of (b7 b6 b5 b4 b3 b2 b1 b0 : bool) :
  msb_first (byte_of [b7; b6; b5; b4; b3; b2; b1; b0]) =
  [b7; b6; b5; b4; b3; b2; b1; b0].
Proof.
  destruct b7, b6, b5, b4, b3, b2, b1, b0; vm_compute; reflexivity.
Qed.

Lemma msb_first_length (v : Z) : length (msb_first v) = 8%nat.
Proof. reflexivity. Qed.

(** ** The byte framing *)

(** C7: for every byte [v], [tx_byte] puts the eight bits of [v] on the line
    most significant first and then returns what the ack/nack read slot
    yields; [read_byte] builds its byte from eight read slots most significant
    first; and a [read_byte] that samples the bits a receiver decodes from the
    waveform of [tx_byte v] returns [v]. *)
Theorem tx_byte_read_byte_loopback (v : Z) (w : world) :
  0 <= v < 256 ->
  let slots := flat_map tx_slot (msb_first v) in
  let sent := slots ++ read_slot (level_now w) in
  tx_byte v w = ack_nack (took 0 slots w) /\
  trace (snd (tx_byte v w)) = trace w ++ sent /\
  wire_bits sent = msb_first v /\
  (forall ack w', msb_first (fst (read_byte ack w')) = levels 8 w') /\
  (forall ack rest tr,
     fst (read_byte ack (mkWorld (wire_bits sent ++ rest) tr)) = v).
Proof.
  intros Hv slots sent.
  assert (Hbits : wire_bits sent = msb_first v).
  { unfold sent, slots. rewrite wire_bits_tx_slots, wire_bits_read_slot.
    apply app_nil_r. }
  repeat split.
  - rewrite tx_byte_eq, ack_nack_eq, took_took, level_now_took0.
    rewrite shifted_out_msb_first by exact Hv. reflexivity.
  - rewrite tx_byte_eq, shifted_out_msb_first by exact Hv. reflexivity.
  - exact Hbits.
  - intros ack w'. rewrite read_byte_eq. cbn [fst].
    unfold levels. cbn [levels_of]. apply msb_first_byte_of.
  - intros ack rest tr. rewrite read_byte_eq, Hbits. cbn [fst].
    rewrite <- (msb_first_length v), levels_app.
    apply byte_of_msb_first, Hv.
Qed.

Lemma tx_byte_read_byte_loopback_witness :
  0 <= 0xA5 < 256 /\
  fst (read_byte SEND_NACK
         (mkWorld
            (wire_bits (flat_map tx_slot (msb_first 0xA5)
                        ++ read_slot (level_now (mkWorld [false] []))) ++ [])
            [])) = 0xA5.
Proof.
  split; [lia|].
  apply (tx_byte_read_byte_loopback 0xA5 (mkWorld [false] [])). lia.
Defined.

(** ** The executor and the command channel *)

Lemma envelope_fields (cmd data : Z) :
  0 <= cmd < 256 -> 0 <= data < 256 ->
  0 <= envelope cmd data < 2 ^ 32 /\
  item_cmd (envelope cmd data) = cmd /\
  item_data (envelope cmd data) = data.
Proof.
  intros Hc Hd.
  pose proof (all_u8_spec
    (fun c => all_u8 (fun d =>
       (0 <=? envelope c d) && (envelope c d <? 2 ^ 32)
       && (item_cmd (envelope c d) =? c)
       && (item_data (envelope c d) =? d)))) as H.
  cbv beta in H.
  assert (Hall : all_u8 (fun d =>
       (0 <=? envelope cmd d) && (envelope cmd d <? 2 ^ 32)
       && (item_cmd (envelope cmd d) =? cmd)
       && (item_data (envelope cmd d) =? d)) = true).
  { apply H; [vm_compute; reflexivity | exact Hc]. }
  pose proof (all_u8_spec _ Hall data Hd) as Hcd. cbv beta in Hcd.
  rewrite !andb_true_iff in Hcd.
  destruct Hcd as [[[H0 H1] H2] H3].
  apply Z.leb_le in H0. apply Z.ltb_lt in H1.
  apply Z.eqb_eq in H2. apply Z.eqb_eq in H3. auto.
Qed.

Lemma lor_shiftl_low (a c n : Z) :
  0 <= n -> 0 <= c < 2 ^ n -> Z.lor (Z.shiftl a n) c = a * 2 ^ n + c.
Proof.
  intros Hn Hc.
  assert (Hland : Z.land (Z.shiftl a n) c = 0).
  { apply Z.bits_inj'. intros i Hi.
    rewrite Z.land_spec, Z.bits_0.
    destruct (Z.lt_ge_cases i n) as [Hlt|Hge].
    - rewrite Z.shiftl_spec_low by exact Hlt. reflexivity.
    - rewrite <- (Z.mod_small c (2 ^ n)) by exact Hc.
      rewrite Z.mod_pow2_bits_high by lia. apply andb_false_r. }
  pose proof (Z.add_lor_land (Z.shiftl a n) c) as H.
  rewrite Hland in H. rewrite Z.shiftl_mul_pow2 in * by exact Hn. lia.
Qed.

Lemma ack_of_level_u8 (b : bool) : u8 (ack_of_level b) = ack_of_level b.
Proof. destruct b; reflexivity. Qed.

Lemma byte_of_range (bits : list bool) : 0 <= byte_of bits < 256.
Proof.
  unfold byte_of.
  assert (H : forall acc, 0 <= acc < 256 ->
            0 <= fold_left (fun a b => u8 (Z.lor (Z.shiftl a 1) (Z.b2z b)))
                   bits acc < 256).
  { induction bits as [|b bits IH]; intros acc Hacc; [exact Hacc|].
    simpl. apply IH, u8_range. }
  apply H. lia.
Qed.

Lemma send_cmd_range (cmd data : Z) (w : world) :
  0 <= fst (send_cmd cmd data w) < 256.
Proof.
  unfold send_cmd, bind. destruct (core1_entry_step _ w). apply u8_range.
Qed.

Lemma send_cmd_tx_byte_eq (d : Z) (w : world) :
  0 <= d < 256 ->
  send_cmd TX_BYTE d w =
  (ack_of_level (level_now w),
   took 1 (IrqOff :: flat_map tx_slot (msb_first d)
           ++ read_slot (level_now w) ++ [IrqOn]) w).
Proof.
  intros Hd. unfold send_cmd, core1_entry_step.
  destruct (envelope_fields TX_BYTE d) as (_ & -> & ->);
    [unfold TX_BYTE; lia | exact Hd |].
  change (TX_BYTE =? TX_BYTE) with true. cbv iota.
  unfold bind. change (emit IrqOff w) with (tt, took 0 [IrqOff] w). cbv iota.
  rewrite tx_byte_eq, shifted_out_msb_first by exact Hd.
  unfold emit, ret. rewrite ack_of_level_u8.
  rewrite took_took. unfold took. cbn [line trace].
  rewrite <- !app_assoc. reflexivity.
Qed.

Lemma send_cmd_discovery_eq (w : world) :
  send_cmd DISCOVERY 0 w =
  (ack_of_level (level_now w),
   took 1 (IrqOff :: discovery_slot (level_now w) ++ [IrqOn]) w).
Proof.
  unfold send_cmd, core1_entry_step.
  change (item_cmd (envelope DISCOVERY 0)) with DISCOVERY.
  change (DISCOVERY =? TX_BYTE) with false.
  change (DISCOVERY =? DISCOVERY) with true. cbv iota.
  unfold bind. change (emit IrqOff w) with (tt, took 0 [IrqOff] w). cbv iota.
  rewrite discovery_response_eq.
  unfold emit, ret. rewrite ack_of_level_u8.
  rewrite took_took. unfold took. cbn [line trace].
  rewrite <- !app_assoc. reflexivity.
Qed.

Lemma send_cmd_rx_byte_eq (a : Z) (w : world) :
  0 <= a < 256 ->
  send_cmd RX_BYTE a w =
  (byte_of (levels 8 w),
   took 8 (IrqOff :: flat_map read_slot (levels 8 w)
           ++ tx_slot (negb (a =? 0)) ++ [IrqOn]) w).
Proof.
  intros Ha. unfold send_cmd, core1_entry_step.
  destruct (envelope_fields RX_BYTE a) as (_ & -> & ->);
    [unfold RX_BYTE; lia | exact Ha |].
  change (RX_BYTE =? TX_BYTE) with false.
  change (RX_BYTE =? DISCOVERY) with false.
  change (RX_BYTE =? RX_BYTE) with true. cbv iota.
  unfold bind. change (emit IrqOff w) with (tt, took 0 [IrqOff] w). cbv iota.
  unfold rx_byte. rewrite read_byte_eq.
  unfold emit, ret. rewrite (u8_small (byte_of _)) by apply byte_of_range.
  rewrite took_took. unfold took. cbn [line trace].
  rewrite <- !app_assoc. reflexivity.
Qed.

(** C9: for every 8-bit opcode and 8-bit payload, the word [send_cmd] pushes
    fits 32 bits, and core 1 decodes from it exactly the pair that was
    packed. *)
Theorem envelope_round_trip (cmd data : Z) :
  0 <= cmd < 256 -> 0 <= data < 256 ->
  0 <= envelope cmd data < 2 ^ 32 /\
  item_cmd (envelope cmd data) = cmd /\
  item_data (envelope cmd data) = data.
Proof. exact (envelope_fields cmd data). Qed.

Lemma envelope_round_trip_witness :
  item_cmd (envelope RX_BYTE SEND_NACK) = RX_BYTE /\
  item_data (envelope RX_BYTE SEND_NACK) = SEND_NACK.
Proof.
  apply (envelope_round_trip RX_BYTE SEND_NACK); unfold RX_BYTE, SEND_NACK; lia.
Defined.

(** C8: one turn of the executor answers [0xFF] for every envelope whose
    opcode is none of [TX_BYTE], [DISCOVERY], [RX_BYTE], with no bus activity;
    for each of the three opcodes it runs exactly that primitive inside the
    interrupt-free section and answers with its result. *)
Theorem core1_dispatch (item : Z) (w : world) :
  let cmd := item_cmd item in
  let data := item_data item in
  let w0 := took 0 [IrqOff] w in
  (cmd <> TX_BYTE -> cmd <> DISCOVERY -> cmd <> RX_BYTE ->
   core1_entry_step item w = (0xFF, took 0 [IrqOff; IrqOn] w)) /\
  (cmd = TX_BYTE ->
   core1_entry_step item w =
   (fst (tx_byte data w0), took 0 [IrqOn] (snd (tx_byte data w0)))) /\
  (cmd = DISCOVERY ->
   core1_entry_step item w =
   (fst (discovery_response w0), took 0 [IrqOn] (snd (discovery_response w0)))) /\
  (cmd = RX_BYTE ->
   core1_entry_step item w =
   (fst (rx_byte data w0), took 0 [IrqOn] (snd (rx_byte data w0)))).
Proof.
  intros cmd data w0. subst cmd data w0. unfold core1_entry_step.
  repeat split.
  - intros H1 H2 H3.
    apply Z.eqb_neq in H1, H2, H3. rewrite H1, H2, H3. now run_prims.
  - intros ->. change (TX_BYTE =? TX_BYTE) with true. cbv iota.
    unfold bind. change (emit IrqOff w) with (tt, took 0 [IrqOff] w).
    cbv iota.
    destruct (tx_byte _ _). reflexivity.
  - intros ->. change (DISCOVERY =? TX_BYTE) with false.
    change (DISCOVERY =? DISCOVERY) with true. cbv iota.
    unfold bind. change (emit IrqOff w) with (tt, took 0 [IrqOff] w).
    cbv iota.
    destruct (discovery_response _). reflexivity.
  - intros ->. change (RX_BYTE =? TX_BYTE) with false.
    change (RX_BYTE =? DISCOVERY) with false.
    change (RX_BYTE =? RX_BYTE) with true. cbv iota.
    unfold bind. change (emit IrqOff w) with (tt, took 0 [IrqOff] w).
    cbv iota.
    destruct (rx_byte _ _). reflexivity.
Qed.

Lemma core1_dispatch_witness :
  core1_entry_step 0x07000055 (mkWorld [false] []) =
  (0xFF, mkWorld [false] [IrqOff; IrqOn]).
Proof.
  apply (core1_dispatch 0x07000055 (mkWorld [false] [])); vm_compute; discriminate.
Defined.

(** ** Session operations *)

Lemma load_address_above (dev_addr data_addr : Z) (w : world) :
  128 < data_addr -> load_address dev_addr data_addr w = (-1, w).
Proof.
  intros H. unfold load_address.
  replace (data_addr >? 128) with true by (symmetry; apply Z.gtb_lt; lia).
  reflexivity.
Qed.

(** C1 (address 128): the target address 128 lies outside the logical range
    [0, 127], yet [load_address] does not answer its range error -1 for it and
    drives the bus: the guard compares with [> 128]. *)
Theorem load_address_128_not_rejected (dev_addr : Z) (w : world) :
  fst (load_address dev_addr 128 w) <> -1 /\
  (length (trace w) < length (trace (snd (load_address dev_addr 128 w))))%nat.
Proof.
  unfold load_address. change (128 >? 128) with false. cbv iota.
  unfold bind. rewrite send_cmd_tx_byte_eq by apply u8_range.
  destruct (level_now w); cbn [ack_of_level Z.eqb negb].
  - unfold ret, took. cbn [fst snd trace]. split; [lia|].
    rewrite length_app. cbn [length]. lia.
  - rewrite send_cmd_tx_byte_eq by lia.
    destruct (level_now _); cbn [ack_of_level Z.eqb negb];
      unfold ret, took; cbn [fst snd trace]; (split; [lia|]);
      rewrite !length_app; cbn [length]; lia.
Qed.

(** C2: [verified_read] reads the address twice and, when the two results
    agree, returns that value in the world left by the second read; when they
    differ it reads a third time and returns the value two of the three reads
    agree on, or -1 when the three are pairwise distinct.  Samples (5,5) give
    5, (5,6,6) give 6 and (5,6,7) give -1. *)
Theorem verified_read_majority (dev_addr data_addr : Z) (w : world) :
  let r0 := read_eeprom dev_addr data_addr w in
  let r1 := read_eeprom dev_addr data_addr (snd r0) in
  let r2 := read_eeprom dev_addr data_addr (snd r1) in
  (fst r0 = fst r1 ->
   verified_read dev_addr data_addr w = (fst r0, snd r1)) /\
  (fst r0 <> fst r1 -> fst r1 = fst r2 ->
   verified_read dev_addr data_addr w = (fst r1, snd r2)) /\
  (fst r0 <> fst r1 -> fst r1 <> fst r2 -> fst r2 = fst r0 ->
   verified_read dev_addr data_addr w = (fst r0, snd r2)) /\
  (fst r0 <> fst r1 -> fst r1 <> fst r2 -> fst r2 <> fst r0 ->
   verified_read dev_addr data_addr w = (-1, snd r2)) /\
  fst (verified_read 0 0x10 (sampling [5; 5])) = 5 /\
  fst (verified_read 0 0x10 (sampling [5; 6; 6])) = 6 /\
  fst (verified_read 0 0x10 (sampling [5; 6; 7])) = -1.
Proof.
  intros r0 r1 r2. subst r0 r1 r2. unfold verified_read, bind, ret.
  destruct (read_eeprom dev_addr data_addr w) as [d0 w1].
  cbv beta iota. cbn [fst snd].
  destruct (read_eeprom dev_addr data_addr w1) as [d1 w2].
  cbv beta iota. cbn [fst snd].
  destruct (Z.eqb_spec d0 d1) as [E01|E01]; cbv beta iota.
  - repeat split; intros; try congruence; reflexivity.
  - destruct (read_eeprom dev_addr data_addr w2) as [d2 w3].
    cbv beta iota. cbn [fst snd].
    destruct (Z.eqb_spec d1 d2) as [E12|E12];
      destruct (Z.eqb_spec d2 d0) as [E20|E20];
      repeat split; intros; try congruence; reflexivity.
Qed.

Lemma verified_read_majority_witness :
  verified_read 0 0x10 (sampling [5; 6; 7]) =
  (-1, snd (read_eeprom 0 0x10
              (snd (read_eeprom 0 0x10
                      (snd (read_eeprom 0 0x10 (sampling [5; 6; 7]))))))).
Proof.
  apply (verified_read_majority 0 0x10 (sampling [5; 6; 7]));
    vm_compute; discriminate.
Defined.

(** C6: [read_eeprom] returns either the received byte, in [0, 255], or one
    of four negative codes, each tied to exactly one failure point: -6, -7, -8
    are the three failures of [load_address] (-1, -2, -3) shifted by 5, and -5
    is the NACK on re-addressing for read. *)
Theorem read_eeprom_codes (dev_addr data_addr : Z) (w : world) :
  let a0 := send_cmd TX_BYTE
              (u8 (Z.lor (Z.lor OPCODE_EEPROM_ACCESS dev_addr) 0)) w in
  let a1 := send_cmd TX_BYTE data_addr (snd a0) in
  let l := load_address dev_addr data_addr w in
  let a2 := send_cmd TX_BYTE
              (u8 (Z.lor (Z.lor OPCODE_EEPROM_ACCESS dev_addr) RW_BIT))
              (snd (stop_con (snd l))) in
  let b := send_cmd RX_BYTE SEND_NACK (snd a2) in
  let r := fst (read_eeprom dev_addr data_addr w) in
  (fst l = -1 <-> 128 < data_addr) /\
  (fst l = -2 <-> data_addr <= 128 /\ fst a0 <> 0) /\
  (fst l = -3 <-> data_addr <= 128 /\ fst a0 = 0 /\ fst a1 <> 0) /\
  (fst l = 1 <-> data_addr <= 128 /\ fst a0 = 0 /\ fst a1 = 0) /\
  (r = -6 <-> fst l = -1) /\
  (r = -7 <-> fst l = -2) /\
  (r = -8 <-> fst l = -3) /\
  (r = -5 <-> fst l = 1 /\ fst a2 <> 0) /\
  (0 <= r <-> fst l = 1 /\ fst a2 = 0) /\
  (0 <= r -> r = fst b /\ r <= 255) /\
  (r < 0 -> r = -5 \/ r = -6 \/ r = -7 \/ r = -8).
Proof.
  intros a0 a1 l a2 b r. subst a0 a1 l a2 b r.
  unfold read_eeprom, load_address, bind, ret.
  destruct (Z.gtb_spec data_addr 128) as [Hgt|Hle].
  { cbn [fst snd]. change (-1 <? 0) with true. cbv iota. cbn [fst snd].
    change (-1 - 5) with (-6). repeat split; intros; lia. }
  destruct (send_cmd TX_BYTE _ w) as [x0 w1]. cbn [fst snd].
  destruct (Z.eqb_spec x0 0) as [H0|H0]; cbn [negb].
  2:{ cbn [fst snd]. change (-2 <? 0) with true. cbv iota. cbn [fst snd].
      change (-2 - 5) with (-7). repeat split; intros; lia. }
  destruct (send_cmd TX_BYTE data_addr w1) as [x1 w2]. cbn [fst snd].
  destruct (Z.eqb_spec x1 0) as [H1|H1]; cbn [negb].
  2:{ cbn [fst snd]. change (-3 <? 0) with true. cbv iota. cbn [fst snd].
      change (-3 - 5) with (-8). repeat split; intros; lia. }
  change (1 <? 0) with false. cbv iota. cbn [fst snd].
  destruct (stop_con w2) as [[] w2'] eqn:Estop. cbn [fst snd].
  destruct (send_cmd TX_BYTE _ w2') as [x2 w3]. cbn [fst snd].
  destruct (Z.eqb_spec x2 0) as [H2|H2]; cbn [negb].
  2:{ cbn [fst snd]. repeat split; intros; lia. }
  pose proof (send_cmd_range RX_BYTE SEND_NACK w3) as Hb.
  destruct (send_cmd RX_BYTE SEND_NACK w3) as [x3 w4]. cbn [fst snd] in *.
  destruct (stop_con w4) as [[] w5]. cbn [fst snd].
  repeat split; intros; lia.
Qed.

Lemma u32_small (x : Z) : 0 <= x < 2 ^ 32 -> u32 x = x.
Proof.
  intros H. unfold u32. change 0xFFFFFFFF with (Z.ones 32).
  rewrite Z.land_ones by lia. apply Z.mod_small. exact H.
Qed.

Lemma pack24 (b1 b2 b3 : Z) :
  0 <= b1 < 256 -> 0 <= b2 < 256 -> 0 <= b3 < 256 ->
  u32 (Z.lor (u32 (Z.lor (u32 (Z.lor 0 (Z.shiftl b1 16))) (Z.shiftl b2 8)))
         (Z.shiftl b3 0)) =
  b1 * 2 ^ 16 + b2 * 2 ^ 8 + b3.
Proof.
  intros H1 H2 H3.
  rewrite Z.lor_0_l, Z.shiftl_0_r.
  rewrite (Z.shiftl_mul_pow2 b2 8), (Z.shiftl_mul_pow2 b1 16) by lia.
  rewrite (u32_small (b1 * 2 ^ 16)) by lia.
  rewrite <- (Z.shiftl_mul_pow2 b1 16) by lia.
  rewrite (lor_shiftl_low b1 (b2 * 2 ^ 8) 16) by lia.
  rewrite (u32_small (b1 * 2 ^ 16 + b2 * 2 ^ 8)) by lia.
  replace (b1 * 2 ^ 16 + b2 * 2 ^ 8) with (Z.shiftl (b1 * 2 ^ 8 + b2) 8)
    by (rewrite Z.shiftl_mul_pow2; lia).
  rewrite (lor_shiftl_low (b1 * 2 ^ 8 + b2) b3 8) by lia.
  rewrite u32_small by lia.
  rewrite Z.shiftl_mul_pow2 by lia. lia.
Qed.

(** C5: [read_mfr_id] returns 0 when discovery is not acknowledged and when
    the manufacturer-ID opcode is not acknowledged; when both are, it receives
    three bytes, acknowledging the first two and NACKing the third, and
    returns [b1 * 2^16 + b2 * 2^8 + b3], a 24-bit value.  Bytes
    (0x00, 0xD3, 0x80) give 0x00D380, the firmware having put on the line the
    opcode 0xC1 and then the bits 0, 0, 1 (ACK, ACK, NACK); a NACK on the
    opcode gives 0. *)
Theorem read_mfr_id_value (dev_addr : Z) (w : world) :
  let opcode := u8 (Z.lor (Z.lor OPCODE_MANUFACTURER_ID dev_addr) RW_BIT) in
  let d := send_cmd DISCOVERY 0 w in
  let t := send_cmd TX_BYTE opcode (snd d) in
  let r1 := send_cmd RX_BYTE SEND_ACK (snd t) in
  let r2 := send_cmd RX_BYTE SEND_ACK (snd r1) in
  let r3 := send_cmd RX_BYTE SEND_NACK (snd r2) in
  (fst d <> 0 -> read_mfr_id dev_addr w = (0, snd d)) /\
  (fst d = 0 -> fst t <> 0 -> read_mfr_id dev_addr w = (0, snd t)) /\
  (fst d = 0 -> fst t = 0 ->
   read_mfr_id dev_addr w =
   (fst r1 * 2 ^ 16 + fst r2 * 2 ^ 8 + fst r3, snd r3) /\
   0 <= fst r1 * 2 ^ 16 + fst r2 * 2 ^ 8 + fst r3 < 2 ^ 24) /\
  fst (read_mfr_id 0 (identifying 0x00 0xD3 0x80)) = 0x00D380 /\
  wire_bits (trace (snd (read_mfr_id 0 (identifying 0x00 0xD3 0x80)))) =
  msb_first 0xC1 ++ [false; false; true] /\
  fst (read_mfr_id 0 (mkWorld [false; true] [])) = 0.
Proof.
  intros opcode d t r1 r2 r3. subst d t r1 r2 r3.
  unfold read_mfr_id, bind, ret. fold opcode.
  destruct (send_cmd DISCOVERY 0 w) as [a0 w1].
  cbv beta iota. cbn [fst snd].
  destruct (Z.eqb_spec a0 0) as [E0|E0]; cbv beta iota.
  2:{ repeat split; intros; try congruence; reflexivity. }
  destruct (send_cmd TX_BYTE opcode w1) as [a1 w2].
  cbv beta iota. cbn [fst snd].
  destruct (Z.eqb_spec a1 0) as [E1|E1]; cbv beta iota.
  2:{ repeat split; intros; try congruence; reflexivity. }
  pose proof (send_cmd_range RX_BYTE SEND_ACK w2) as R1.
  destruct (send_cmd RX_BYTE SEND_ACK w2) as [b1 w3].
  cbv beta iota. cbn [fst snd] in *.
  pose proof (send_cmd_range RX_BYTE SEND_ACK w3) as R2.
  destruct (send_cmd RX_BYTE SEND_ACK w3) as [b2 w4].
  cbv beta iota. cbn [fst snd] in *.
  pose proof (send_cmd_range RX_BYTE SEND_NACK w4) as R3.
  destruct (send_cmd RX_BYTE SEND_NACK w4) as [b3 w5].
  cbv beta iota zeta. cbn [fst snd] in *.
  rewrite pack24 by assumption.
  repeat split; intros; try congruence; try reflexivity; lia.
Qed.

Lemma read_mfr_id_value_witness :
  read_mfr_id 0 (mkWorld [false; true] []) =
  (0, snd (send_cmd TX_BYTE 0xC1 (snd (send_cmd DISCOVERY 0 (mkWorld [false; true] []))))).
Proof.
  apply (read_mfr_id_value 0 (mkWorld [false; true] []));
    vm_compute; congruence.
Defined.

Lemma read_eeprom_range (dev_addr data_addr : Z) (w : world) :
  -8 <= fst (read_eeprom dev_addr data_addr w) <= 255.
Proof.
  unfold read_eeprom, load_address, bind, ret.
  destruct (data_addr >? 128); [cbn; lia|].
  destruct (send_cmd TX_BYTE _ w) as [x0 w1]. cbv beta iota.
  destruct (x0 =? 0); cbn [negb]; [|cbn; lia].
  destruct (send_cmd TX_BYTE data_addr w1) as [x1 w2]. cbv beta iota.
  destruct (x1 =? 0); cbn [negb]; [|cbn; lia].
  change (1 <? 0) with false. cbv beta iota.
  destruct (stop_con w2) as [[] w2']. cbv beta iota.
  destruct (send_cmd TX_BYTE _ w2') as [x2 w3]. cbv beta iota.
  destruct (x2 =? 0); cbn [negb]; [|cbn; lia].
  pose proof (send_cmd_range RX_BYTE SEND_NACK w3) as Hb.
  destruct (send_cmd RX_BYTE SEND_NACK w3) as [x3 w4]. cbv beta iota.
  destruct (stop_con w4) as [[] w5]. cbn [fst snd] in *. lia.
Qed.

Lemma verified_read_range (dev_addr data_addr : Z) (w : world) :
  -8 <= fst (verified_read dev_addr data_addr w) <= 255.
Proof.
  unfold verified_read, bind, ret.
  pose proof (read_eeprom_range dev_addr data_addr w) as R0.
  destruct (read_eeprom dev_addr data_addr w) as [d0 w1]. cbv beta iota.
  pose proof (read_eeprom_range dev_addr data_addr w1) as R1.
  destruct (read_eeprom dev_addr data_addr w1) as [d1 w2]. cbv beta iota.
  cbn [fst] in *.
  destruct (d0 =? d1); cbv beta iota; [cbn [fst]; lia|].
  pose proof (read_eeprom_range dev_addr data_addr w2) as R2.
  destruct (read_eeprom dev_addr data_addr w2) as [d2 w3]. cbv beta iota.
  cbn [fst] in *.
  destruct (d1 =? d2); [cbn [fst]; lia|].
  destruct (d2 =? d0); cbn [fst]; lia.
Qed.

Lemma loop_step (k : nat) (dev_addr data_addr : Z) (w : world) :
  verified_read dev_addr (u8 (data_addr + Z.of_nat k))
    (loop_world k dev_addr data_addr w) =
  (loop_read k dev_addr data_addr w, loop_world (S k) dev_addr data_addr w).
Proof.
  unfold loop_read. cbn [loop_world]. apply surjective_pairing.
Qed.

Lemma read_block_loop_code (n : nat) (dev_addr data_addr i : Z)
      (buffer : list Z) (w : world) :
  fst (fst (read_block_loop n dev_addr data_addr i buffer w)) = 1 \/
  fst (fst (read_block_loop n dev_addr data_addr i buffer w)) = -3.
Proof.
  revert i buffer w. induction n as [|n IH]; intros i buffer w.
  - left. reflexivity.
  - cbn [read_block_loop]. unfold bind.
    destruct (verified_read _ _ w) as [res w']. cbv beta iota.
    destruct (res <? 0); [right; reflexivity | apply IH].
Qed.

Lemma read_block_loop_ok (dev_addr data_addr : Z) (w0 : world) (n : nat) :
  forall (i0 : nat) (buffer : list Z),
    (forall k, (i0 <= k < i0 + n)%nat -> 0 <= loop_read k dev_addr data_addr w0) ->
    exists buffer',
      read_block_loop n dev_addr data_addr (Z.of_nat i0) buffer
        (loop_world i0 dev_addr data_addr w0) =
      ((1, buffer'), loop_world (i0 + n) dev_addr data_addr w0) /\
      length buffer' = length buffer /\
      (forall k, (i0 <= k < i0 + n)%nat -> (k < length buffer)%nat ->
                 buffer' !! k = Some (loop_read k dev_addr data_addr w0)) /\
      (forall k, (k < i0 \/ i0 + n <= k)%nat -> buffer' !! k = buffer !! k).
Proof.
  induction n as [|n IH]; intros i0 buffer Hok.
  - exists buffer. cbn [read_block_loop]. unfold ret.
    rewrite Nat.add_0_r. repeat split; intros; try lia; reflexivity.
  - cbn [read_block_loop]. unfold bind. rewrite loop_step.
    assert (Hres : 0 <= loop_read i0 dev_addr data_addr w0) by (apply Hok; lia).
    pose proof (verified_read_range dev_addr (u8 (data_addr + Z.of_nat i0))
                  (loop_world i0 dev_addr data_addr w0)) as Hrange.
    fold (loop_read i0 dev_addr data_addr w0) in Hrange.
    replace (loop_read i0 dev_addr data_addr w0 <? 0) with false
      by (symmetry; apply Z.ltb_ge; exact Hres).
    rewrite u8_small by lia. rewrite Nat2Z.id.
    replace (Z.of_nat i0 + 1) with (Z.of_nat (S i0)) by lia.
    destruct (IH (S i0) (<[i0 := loop_read i0 dev_addr data_addr w0]> buffer))
      as (buffer' & Hrun & Hlen & Hin & Hout).
    { intros k Hk. apply Hok. lia. }
    exists buffer'. rewrite Hrun.
    replace (S i0 + n)%nat with (i0 + S n)%nat by lia.
    rewrite length_insert in Hlen.
    split; [reflexivity|]. split; [exact Hlen|]. split.
    + intros k Hk Hklen. destruct (decide (k = i0)) as [->|Hne].
      * rewrite Hout by lia. apply list_lookup_insert_eq. exact Hklen.
      * apply Hin; [lia|]. rewrite length_insert. exact Hklen.
    + intros k Hk. rewrite Hout by lia.
      apply list_lookup_insert_ne. lia.
Qed.

Lemma read_block_loop_fail (dev_addr data_addr : Z) (w0 : world) (n : nat) :
  forall (i0 k : nat) (buffer : list Z),
    (i0 <= k < i0 + n)%nat ->
    (forall j, (i0 <= j < k)%nat -> 0 <= loop_read j dev_addr data_addr w0) ->
    loop_read k dev_addr data_addr w0 < 0 ->
    fst (fst (read_block_loop n dev_addr data_addr (Z.of_nat i0) buffer
                (loop_world i0 dev_addr data_addr w0))) = -3 /\
    snd (read_block_loop n dev_addr data_addr (Z.of_nat i0) buffer
           (loop_world i0 dev_addr data_addr w0)) =
    loop_world (S k) dev_addr data_addr w0.
Proof.
  induction n as [|n IH]; intros i0 k buffer Hk Hok Hfail; [lia|].
  cbn [read_block_loop]. unfold bind. rewrite loop_step.
  destruct (decide (k = i0)) as [->|Hne].
  - replace (loop_read i0 dev_addr data_addr w0 <? 0) with true
      by (symmetry; apply Z.ltb_lt; exact Hfail).
    split; reflexivity.
  - assert (Hres : 0 <= loop_read i0 dev_addr data_addr w0) by (apply Hok; lia).
    replace (loop_read i0 dev_addr data_addr w0 <? 0) with false
      by (symmetry; apply Z.ltb_ge; exact Hres).
    replace (Z.of_nat i0 + 1) with (Z.of_nat (S i0)) by lia.
    apply IH; [lia | intros j Hj; apply Hok; lia | exact Hfail].
Qed.

Lemma read_block_rejects (dev_addr data_addr len : Z) (buffer : list Z)
      (w : world) :
  128 < data_addr + len ->
  read_block dev_addr data_addr buffer len w = ((-1, buffer), w).
Proof.
  intros H. unfold read_block.
  replace (data_addr + len >? 128) with true by (symmetry; apply Z.gtb_lt; lia).
  reflexivity.
Qed.

Lemma read_block_enters (dev_addr data_addr len : Z) (buffer : list Z)
      (w : world) :
  data_addr + len <= 128 ->
  fst (send_cmd DISCOVERY 0 w) = 0 ->
  read_block dev_addr data_addr buffer len w =
  read_block_loop (Z.to_nat len) dev_addr data_addr 0 buffer
    (snd (send_cmd DISCOVERY 0 w)).
Proof.
  intros H Hack. unfold read_block.
  replace (data_addr + len >? 128) with false
    by (symmetry; rewrite Z.gtb_ltb; apply Z.ltb_ge; lia).
  unfold bind. destruct (send_cmd DISCOVERY 0 w) as [ack w0].
  cbn [fst snd] in *. subst ack. reflexivity.
Qed.

(** ** Block read *)

(** C3: when [start + len > 128], [read_block] returns -1 and leaves the
    world untouched (so for start 120 and length 16); otherwise, when
    discovery is acknowledged and every verified read of the block succeeds,
    it returns 1 and cell [k] of the buffer, for every [k < len], holds what
    the verified read of address [start + k] returned, the reads being made in
    ascending address order; the rest of the buffer is unchanged.  A block
    read of 16 cells from address 0 of a served array returns its first 16
    cells in order. *)
Theorem read_block_result (dev_addr data_addr len : Z) (buffer : list Z)
        (w : world) :
  (128 < data_addr + len ->
   read_block dev_addr data_addr buffer len w = ((-1, buffer), w)) /\
  read_block dev_addr 120 buffer 16 w = ((-1, buffer), w) /\
  (0 <= data_addr -> 0 <= len -> data_addr + len <= 128 ->
   (Z.to_nat len <= length buffer)%nat ->
   fst (send_cmd DISCOVERY 0 w) = 0 ->
   let w0 := snd (send_cmd DISCOVERY 0 w) in
   (forall k, (k < Z.to_nat len)%nat ->
              0 <= loop_read k dev_addr data_addr w0) ->
   exists buffer',
     read_block dev_addr data_addr buffer len w =
     ((1, buffer'), loop_world (Z.to_nat len) dev_addr data_addr w0) /\
     length buffer' = length buffer /\
     (forall k, (k < Z.to_nat len)%nat ->
        buffer' !! k =
        Some (fst (verified_read dev_addr (data_addr + Z.of_nat k)
                     (loop_world k dev_addr data_addr w0)))) /\
     drop (Z.to_nat len) buffer' = drop (Z.to_nat len) buffer) /\
  fst (read_block 0 0 (repeat 0 16) 16 (serving 0 16)) =
  (1, map cell [0; 1; 2; 3; 4; 5; 6; 7; 8; 9; 10; 11; 12; 13; 14; 15]).
Proof.
  split; [apply read_block_rejects|].
  split; [apply read_block_rejects; lia|].
  split; [|vm_compute; reflexivity].
  intros Ha Hlen Hsum Hbuf Hack w0 Hok.
  rewrite read_block_enters by assumption. fold w0.
  destruct (read_block_loop_ok dev_addr data_addr w0 (Z.to_nat len) 0 buffer)
    as (buffer' & Hrun & Hl & Hin & Hout).
  { intros k Hk. apply Hok. lia. }
  exists buffer'. cbn [loop_world Z.of_nat Nat.add] in Hrun.
  split; [exact Hrun|]. split; [exact Hl|]. split.
  - intros k Hk. rewrite Hin by lia. unfold loop_read.
    rewrite u8_small by lia. reflexivity.
  - apply list_eq. intros i. rewrite !lookup_drop. apply Hout. lia.
Qed.

Lemma read_block_result_witness :
  exists buffer',
    read_block 0 0 [0; 0] 2 (serving 0 2) =
    ((1, buffer'),
     loop_world 2 0 0 (snd (send_cmd DISCOVERY 0 (serving 0 2)))) /\
    length buffer' = 2%nat /\
    (forall k, (k < 2)%nat ->
       buffer' !! k =
       Some (fst (verified_read 0 (0 + Z.of_nat k)
                    (loop_world k 0 0
                       (snd (send_cmd DISCOVERY 0 (serving 0 2))))))) /\
    drop 2 buffer' = drop 2 [0; 0].
Proof.
  destruct (read_block_result 0 0 2 [0; 0] (serving 0 2)) as (_ & _ & H & _).
  apply H.
  - lia.
  - lia.
  - lia.
  - cbn. lia.
  - vm_compute. reflexivity.
  - intros k Hk. destruct k as [|[|k]]; [vm_compute; discriminate ..|].
    change (Z.to_nat 2) with 2%nat in Hk. lia.
Defined.

(** C4: once the range check has passed and discovery is acknowledged, if the
    verified read of some cell of the block returns a negative value (whatever
    the cell, whatever the value, the cells before it having been read),
    [read_block] stops there and returns -3. *)
Theorem read_block_abort (dev_addr data_addr len : Z) (buffer : list Z)
        (w : world) (k : nat) :
  data_addr + len <= 128 ->
  fst (send_cmd DISCOVERY 0 w) = 0 ->
  let w0 := snd (send_cmd DISCOVERY 0 w) in
  (k < Z.to_nat len)%nat ->
  (forall j, (j < k)%nat -> 0 <= loop_read j dev_addr data_addr w0) ->
  loop_read k dev_addr data_addr w0 < 0 ->
  fst (fst (read_block dev_addr data_addr buffer len w)) = -3 /\
  snd (read_block dev_addr data_addr buffer len w) =
  loop_world (S k) dev_addr data_addr w0.
Proof.
  intros Hsum Hack w0 Hk Hok Hfail.
  rewrite read_block_enters by assumption. fold w0.
  apply (read_block_loop_fail dev_addr data_addr w0 (Z.to_nat len) 0 k buffer);
    [lia | intros j Hj; apply Hok; lia | exact Hfail].
Qed.

Lemma read_block_abort_witness :
  fst (fst (read_block 0 0 [0; 0] 2 (mkWorld [false] []))) = -3 /\
  snd (read_block 0 0 [0; 0] 2 (mkWorld [false] [])) =
  loop_world 1 0 0 (snd (send_cmd DISCOVERY 0 (mkWorld [false] []))).
Proof.
  apply (read_block_abort 0 0 2 [0; 0] (mkWorld [false] []) 0).
  - lia.
  - vm_compute; reflexivity.
  - cbn. lia.
  - intros j Hj. lia.
  - vm_compute; reflexivity.
Defined.

(** C10: the range check of [read_block] adds start and length as integers,
    without wrap-around: the block is rejected with -1 exactly when the sum
    exceeds 128 (so for start 255 and length 255, and for 200 and 100, whose
    sum modulo 256 would be in range); for length 0 and a start of at most 128
    the check passes, no cell is read, the buffer is returned as it was, and
    the result is 1 when discovery is acknowledged. *)
Theorem read_block_range_check (dev_addr data_addr len : Z) (buffer : list Z)
        (w : world) :
  (128 < data_addr + len ->
   read_block dev_addr data_addr buffer len w = ((-1, buffer), w)) /\
  (data_addr + len <= 128 ->
   fst (fst (read_block dev_addr data_addr buffer len w)) <> -1) /\
  read_block dev_addr 255 buffer 255 w = ((-1, buffer), w) /\
  read_block dev_addr 200 buffer 100 w = ((-1, buffer), w) /\
  (data_addr <= 128 -> fst (send_cmd DISCOVERY 0 w) = 0 ->
   read_block dev_addr data_addr buffer 0 w =
   ((1, buffer), snd (send_cmd DISCOVERY 0 w))).
Proof.
  split; [apply read_block_rejects|].
  split; [|split; [apply read_block_rejects; lia|
           split; [apply read_block_rejects; lia|]]].
  - intros Hsum. unfold read_block.
    replace (data_addr + len >? 128) with false
      by (symmetry; rewrite Z.gtb_ltb; apply Z.ltb_ge; lia).
    unfold bind. destruct (send_cmd DISCOVERY 0 w) as [ack w0].
    cbv beta iota. destruct (ack =? 0); cbn [negb].
    + destruct (read_block_loop_code (Z.to_nat len) dev_addr data_addr 0
                  buffer w0) as [H|H]; rewrite H; lia.
    + cbn. lia.
  - intros Ha Hack. rewrite read_block_enters by (assumption || lia).
    reflexivity.
Qed.

Lemma read_block_range_check_witness :
  read_block 0 128 [] 0 (mkWorld [false] []) =
  ((1, []), snd (send_cmd DISCOVERY 0 (mkWorld [false] []))).
Proof.
  apply (read_block_range_check 0 128 0 [] (mkWorld [false] []));
    [lia | vm_compute; reflexivity].
Defined.

(** ** Timing, pin state and interrupt discipline of the primitives *)










Lemma irq_check_app (off : bool) (a b : list event) :
  irq_check off (a ++ b) =
  match irq_check off a with
  | Some off' => irq_check off' b
  | None => None
  end.
Proof.
  revert off. induction a as [|e a IH]; intros off; [reflexivity|].
  destruct e, off; cbn [app irq_check]; try reflexivity; apply IH.
Qed.

Lemma pin_released_app (before : bool) (a b : list event) :
  pin_released before (a ++ b) = pin_released (pin_released before a) b.
Proof.
  revert before. induction a as [|e a IH]; intros before; [reflexivity|].
  destruct e; cbn [app pin_released]; apply IH.
Qed.

Lemma irq_check_tx_slots (bits : list bool) :
  irq_check true (flat_map tx_slot bits) = Some true.
Proof.
  induction bits as [|b bits IH]; [reflexivity|].
  cbn [flat_map]. rewrite irq_check_app. destruct b; exact IH.
Qed.

Lemma irq_check_read_slots (bits : list bool) :
  irq_check true (flat_map read_slot bits) = Some true.
Proof.
  induction bits as [|b bits IH]; [reflexivity|].
  cbn [flat_map]. rewrite irq_check_app. exact IH.
Qed.

Lemma orderly_nil : orderly [].
Proof. split; reflexivity. Qed.

Lemma orderly_app (a b : list event) : orderly a -> orderly b -> orderly (a ++ b).
Proof.
  intros [Ha1 Ha2] [Hb1 Hb2]. split.
  - rewrite irq_check_app, Ha1. exact Hb1.
  - rewrite pin_released_app, Ha2. exact Hb2.
Qed.

Lemma orderly_tx_turn (bits : list bool) (b : bool) :
  orderly (IrqOff :: flat_map tx_slot bits ++ read_slot b ++ [IrqOn]).
Proof.
  split.
  - cbn [irq_check]. rewrite irq_check_app, irq_check_tx_slots. reflexivity.
  - cbn [pin_released]. rewrite pin_released_app. reflexivity.
Qed.

Lemma orderly_rx_turn (bits : list bool) (closing : bool) :
  orderly (IrqOff :: flat_map read_slot bits ++ tx_slot closing ++ [IrqOn]).
Proof.
  split.
  - cbn [irq_check]. rewrite irq_check_app, irq_check_read_slots.
    destruct closing; reflexivity.
  - cbn [pin_released]. rewrite pin_released_app.
    destruct closing; reflexivity.
Qed.

Lemma orderly_discovery_turn (b : bool) :
  orderly (IrqOff :: discovery_slot b ++ [IrqOn]).
Proof. split; reflexivity. Qed.

Lemma keeps_order_ret {A : Type} (a : A) : keeps_order (ret a).
Proof.
  intros w. exists []. split; [symmetry; apply app_nil_r | apply orderly_nil].
Qed.

Lemma keeps_order_bind {A B : Type} (c : M A) (k : A -> M B) :
  keeps_order c -> (forall a, keeps_order (k a)) -> keeps_order (bind c k).
Proof.
  intros Hc Hk w. unfold bind.
  destruct (Hc w) as (e1 & H1 & O1).
  destruct (c w) as [a w1]. cbn [snd] in H1.
  destruct (Hk a w1) as (e2 & H2 & O2).
  exists (e1 ++ e2). split; [|apply orderly_app; assumption].
  rewrite H2, H1. symmetry. apply app_assoc.
Qed.

Lemma keeps_order_core1_entry_step (item : Z) :
  keeps_order (core1_entry_step item).
Proof.
  intros w. unfold core1_entry_step, bind.
  change (emit IrqOff w) with (tt, took 0 [IrqOff] w). cbv iota.
  destruct (item_cmd item =? TX_BYTE);
    [|destruct (item_cmd item =? DISCOVERY);
      [|destruct (item_cmd item =? RX_BYTE)]].
  - rewrite tx_byte_eq. unfold emit, ret, took. cbn [fst snd line trace].
    rewrite <- !app_assoc. eexists. split; [reflexivity|].
    apply orderly_tx_turn.
  - rewrite discovery_response_eq. unfold emit, ret, took.
    cbn [fst snd line trace]. rewrite <- !app_assoc.
    eexists. split; [reflexivity|]. apply orderly_discovery_turn.
  - unfold rx_byte. rewrite read_byte_eq. unfold emit, ret, took.
    cbn [fst snd line trace]. rewrite <- !app_assoc.
    eexists. split; [reflexivity|]. apply orderly_rx_turn.
  - unfold emit, ret, took. cbn [fst snd line trace].
    rewrite <- !app_assoc. eexists. split; [reflexivity|].
    split; reflexivity.
Qed.

Lemma keeps_order_send_cmd (cmd data : Z) : keeps_order (send_cmd cmd data).
Proof.
  unfold send_cmd. apply keeps_order_bind.
  - apply keeps_order_core1_entry_step.
  - intros a. apply keeps_order_ret.
Qed.

Lemma keeps_order_stop_con : keeps_order stop_con.
Proof.
  intros w. exists [Delay 500]. split; [reflexivity | split; reflexivity].
Qed.

Lemma keeps_order_load_address (dev_addr data_addr : Z) :
  keeps_order (load_address dev_addr data_addr).
Proof.
  unfold load_address.
  destruct (data_addr >? 128); [apply keeps_order_ret|].
  apply keeps_order_bind; [apply keeps_order_send_cmd|]. intros a0.
  destruct (negb (a0 =? 0)); [apply keeps_order_ret|].
  apply keeps_order_bind; [apply keeps_order_send_cmd|]. intros a1.
  destruct (negb (a1 =? 0)); apply keeps_order_ret.
Qed.

Lemma keeps_order_read_eeprom (dev_addr data_addr : Z) :
  keeps_order (read_eeprom dev_addr data_addr).
Proof.
  unfold read_eeprom.
  apply keeps_order_bind; [apply keeps_order_load_address|]. intros res.
  destruct (res <? 0); [apply keeps_order_ret|].
  apply keeps_order_bind; [apply keeps_order_stop_con|]. intros _.
  apply keeps_order_bind; [apply keeps_order_send_cmd|]. intros a2.
  destruct (negb (a2 =? 0)); [apply keeps_order_ret|].
  apply keeps_order_bind; [apply keeps_order_send_cmd|]. intros data.
  apply keeps_order_bind; [apply keeps_order_stop_con|]. intros _.
  apply keeps_order_ret.
Qed.

Lemma keeps_order_verified_read (dev_addr data_addr : Z) :
  keeps_order (verified_read dev_addr data_addr).
Proof.
  unfold verified_read.
  apply keeps_order_bind; [apply keeps_order_read_eeprom|]. intros d0.
  apply keeps_order_bind; [apply keeps_order_read_eeprom|]. intros d1.
  destruct (d0 =? d1); [apply keeps_order_ret|].
  apply keeps_order_bind; [apply keeps_order_read_eeprom|]. intros d2.
  destruct (d1 =? d2); [apply keeps_order_ret|].
  destruct (d2 =? d0); apply keeps_order_ret.
Qed.

Lemma keeps_order_read_block_loop (n : nat) (dev_addr data_addr : Z) :
  forall i buffer, keeps_order (read_block_loop n dev_addr data_addr i buffer).
Proof.
  induction n as [|n IH]; intros i buffer; cbn [read_block_loop].
  - apply keeps_order_ret.
  - apply keeps_order_bind; [apply keeps_order_verified_read|]. intros res.
    destruct (res <? 0); [apply keeps_order_ret | apply IH].
Qed.


(** X5: whatever the device does and whatever their outcome, [read_mfr_id]
    and [read_block] only add to the trace, drive the pin only inside
    interrupt-free sections that are each closed again, and return with
    interrupts enabled and the pin released. *)
Theorem session_keeps_order (dev_addr data_addr len : Z) (buffer : list Z) :
  keeps_order (read_mfr_id dev_addr) /\
  keeps_order (read_block dev_addr data_addr buffer len).
Proof.
  split.
  - unfold read_mfr_id.
    apply keeps_order_bind; [apply keeps_order_send_cmd|]. intros a0.
    destruct (a0 =? 0); [|apply keeps_order_ret].
    apply keeps_order_bind; [apply keeps_order_send_cmd|]. intros a1.
    destruct (a1 =? 0); [|apply keeps_order_ret].
    apply keeps_order_bind; [apply keeps_order_send_cmd|]. intros b1.
    apply keeps_order_bind; [apply keeps_order_send_cmd|]. intros b2.
    apply keeps_order_bind; [apply keeps_order_send_cmd|]. intros b3.
    apply keeps_order_ret.
  - unfold read_block.
    destruct (data_addr + len >? 128); [apply keeps_order_ret|].
    apply keeps_order_bind; [apply keeps_order_send_cmd|]. intros ack.
    destruct (negb (ack =? 0)); [apply keeps_order_ret|].
    apply keeps_order_read_block_loop.
Qed.

(** ** The command channel against a device *)


Lemma send_rx (a v : Z) (rest : list bool) (tr : list event) :
  0 <= a < 256 -> 0 <= v < 256 ->
  send_cmd RX_BYTE a (mkWorld (msb_first v ++ rest) tr) =
  (v, mkWorld rest (tr ++ rx_turn (msb_first v) (negb (a =? 0)))).
Proof.
  intros Ha Hv. rewrite send_cmd_rx_byte_eq by exact Ha.
  change 8%nat with (length (msb_first v)). rewrite levels_app.
  rewrite byte_of_msb_first by exact Hv.
  unfold took. cbn [line trace]. rewrite drop_app_length. reflexivity.
Qed.


Lemma wire_bits_read_slots (bits : list bool) (t : list event) :
  wire_bits (flat_map read_slot bits ++ t) = wire_bits t.
Proof.
  induction bits as [|b bits IH]; [reflexivity|].
  cbn [flat_map]. rewrite <- app_assoc. cbn. exact IH.
Qed.

Lemma wire_bits_tx_turn (d : Z) (b : bool) (t : list event) :
  wire_bits (tx_turn d b ++ t) = msb_first d ++ wire_bits t.
Proof.
  unfold tx_turn. rewrite <- app_comm_cons, <- !app_assoc.
  cbn [wire_bits]. rewrite wire_bits_tx_slots. reflexivity.
Qed.

Lemma wire_bits_rx_turn (bits : list bool) (closing : bool) (t : list event) :
  wire_bits (rx_turn bits closing ++ t) = closing :: wire_bits t.
Proof.
  unfold rx_turn. rewrite <- app_comm_cons, <- !app_assoc.
  cbn [wire_bits]. rewrite wire_bits_read_slots.
  destruct closing; reflexivity.
Qed.



(** X6: for every byte [d], [send_cmd TX_BYTE d] puts exactly the bits of [d],
    most significant first, on the line, takes one sample, and answers 0x00
    exactly when that sample finds the line low and 0xFF otherwise. *)
Theorem send_cmd_tx_byte_wire (d : Z) (w : world) :
  0 <= d < 256 ->
  exists evs,
    trace (snd (send_cmd TX_BYTE d w)) = trace w ++ evs /\
    wire_bits evs = msb_first d /\
    line (snd (send_cmd TX_BYTE d w)) = tl (line w) /\
    (fst (send_cmd TX_BYTE d w) = 0x00 <-> level_now w = false) /\
    (fst (send_cmd TX_BYTE d w) = 0xFF <-> level_now w = true).
Proof.
  intros Hd. rewrite send_cmd_tx_byte_eq by exact Hd.
  exists (tx_turn d (level_now w)). cbn [fst snd]. unfold took.
  cbn [line trace].
  split; [reflexivity|]. split.
  { rewrite <- (app_nil_r (tx_turn _ _)), wire_bits_tx_turn. apply app_nil_r. }
  split; [destruct (line w); reflexivity|].
  destruct (level_now w); cbn [ack_of_level];
    repeat split; intros; try discriminate; reflexivity.
Qed.

Lemma send_cmd_tx_byte_wire_witness :
  exists evs,
    trace (snd (send_cmd TX_BYTE 0xA1 (mkWorld [false] []))) = [] ++ evs /\
    wire_bits evs = msb_first 0xA1 /\
    line (snd (send_cmd TX_BYTE 0xA1 (mkWorld [false] []))) = [] /\
    (fst (send_cmd TX_BYTE 0xA1 (mkWorld [false] [])) = 0x00 <-> false = false) /\
    (fst (send_cmd TX_BYTE 0xA1 (mkWorld [false] [])) = 0xFF <-> false = true).
Proof.
  apply (send_cmd_tx_byte_wire 0xA1 (mkWorld [false] [])). lia.
Defined.

(** X7: for every byte [v] a device puts on the line, most significant bit
    first, [send_cmd RX_BYTE a] returns [v], consumes exactly those eight
    levels, and closes the frame with one transmitted bit, a one (NACK) when
    [a] is not zero and a zero (ACK) when it is. *)
Theorem send_cmd_rx_byte_value (a v : Z) (rest : list bool) (tr : list event) :
  0 <= a < 256 -> 0 <= v < 256 ->
  exists evs,
    send_cmd RX_BYTE a (mkWorld (msb_first v ++ rest) tr) =
    (v, mkWorld rest (tr ++ evs)) /\
    wire_bits evs = [negb (a =? 0)].
Proof.
  intros Ha Hv. rewrite send_rx by assumption.
  eexists. split; [reflexivity|].
  rewrite <- (app_nil_r (rx_turn _ _)), wire_bits_rx_turn. reflexivity.
Qed.

Lemma send_cmd_rx_byte_value_witness :
  exists evs,
    send_cmd RX_BYTE SEND_NACK (mkWorld (msb_first 0xD3 ++ [true]) []) =
    (0xD3, mkWorld [true] ([] ++ evs)) /\
    wire_bits evs = [negb (SEND_NACK =? 0)].
Proof.
  apply (send_cmd_rx_byte_value SEND_NACK 0xD3 [true] []);
    unfold SEND_NACK; lia.
Defined.

(** ** Session operations against a device *)


Lemma gtb_false (a : Z) : a <= 128 -> (a >? 128) = false.
Proof. intros H. rewrite Z.gtb_ltb. apply Z.ltb_ge. lia. Qed.






(** X8: [load_address] leaves the world untouched when it rejects an address
    above 128; otherwise it transmits the device opcode for write and stops
    there with -2 when that byte is not acknowledged, or goes on to transmit
    the address byte and returns -3 or 1 according to its acknowledgement;
    nothing else is put on the line. *)
Theorem load_address_outcomes (dev_addr data_addr : Z) (w : world) :
  0 <= data_addr < 256 ->
  let opcode := u8 (Z.lor (Z.lor OPCODE_EEPROM_ACCESS dev_addr) 0) in
  let r := load_address dev_addr data_addr w in
  (128 < data_addr -> r = (-1, w)) /\
  (data_addr <= 128 ->
   exists evs,
     trace (snd r) = trace w ++ evs /\
     ((fst r = -2 /\ level_now w = true /\ wire_bits evs = msb_first opcode) \/
      ((fst r = -3 \/ fst r = 1) /\ level_now w = false /\
       wire_bits evs = msb_first opcode ++ msb_first data_addr))).
Proof.
  intros Ha opcode r. subst r. split; [apply load_address_above|].
  intros Hle. unfold load_address. rewrite gtb_false by exact Hle.
  unfold bind. fold opcode.
  rewrite send_cmd_tx_byte_eq by apply u8_range.
  destruct (level_now w) eqn:Hl; cbn [ack_of_level Z.eqb negb].
  - exists (tx_turn opcode true). unfold ret, took. cbn [fst snd trace].
    split; [reflexivity|]. left. split; [reflexivity|]. split; [reflexivity|].
    rewrite <- (app_nil_r (tx_turn _ _)), wire_bits_tx_turn. apply app_nil_r.
  - rewrite send_cmd_tx_byte_eq by exact Ha.
    match goal with |- context [level_now ?x] => set (b := level_now x) end.
    exists (tx_turn opcode false ++ tx_turn data_addr b).
    assert (Hw : wire_bits (tx_turn opcode false ++ tx_turn data_addr b) =
                 msb_first opcode ++ msb_first data_addr).
    { rewrite wire_bits_tx_turn.
      rewrite <- (app_nil_r (tx_turn data_addr b)), wire_bits_tx_turn.
      now rewrite app_nil_r. }
    destruct b; cbn [ack_of_level Z.eqb negb]; unfold ret, took;
      cbn [fst snd trace]; rewrite <- app_assoc;
      (split; [reflexivity|]); right; auto.
Qed.

Lemma load_address_outcomes_witness :
  exists evs,
    trace (snd (load_address 0 0x10 (mkWorld [false; true] []))) = [] ++ evs /\
    ((fst (load_address 0 0x10 (mkWorld [false; true] [])) = -2 /\
      level_now (mkWorld [false; true] []) = true /\
      wire_bits evs = msb_first (u8 (Z.lor (Z.lor OPCODE_EEPROM_ACCESS 0) 0))) \/
     ((fst (load_address 0 0x10 (mkWorld [false; true] [])) = -3 \/
       fst (load_address 0 0x10 (mkWorld [false; true] [])) = 1) /\
      level_now (mkWorld [false; true] []) = false /\
      wire_bits evs =
      msb_first (u8 (Z.lor (Z.lor OPCODE_EEPROM_ACCESS 0) 0)) ++ msb_first 0x10)).
Proof.
  apply (load_address_outcomes 0 0x10 (mkWorld [false; true] [])); lia.
Defined.



Lemma read_eeprom_code_set (dev_addr data_addr : Z) (w : world) :
  0 <= fst (read_eeprom dev_addr data_addr w) <= 255 \/
  -8 <= fst (read_eeprom dev_addr data_addr w) <= -5.
Proof.
  unfold read_eeprom, load_address, bind, ret.
  destruct (data_addr >? 128); [right; cbn; lia|].
  destruct (send_cmd TX_BYTE _ w) as [x0 w1]. cbv beta iota.
  destruct (x0 =? 0); cbn [negb]; [|right; cbn; lia].
  destruct (send_cmd TX_BYTE data_addr w1) as [x1 w2]. cbv beta iota.
  destruct (x1 =? 0); cbn [negb]; [|right; cbn; lia].
  change (1 <? 0) with false. cbv beta iota.
  destruct (stop_con w2) as [[] w2']. cbv beta iota.
  destruct (send_cmd TX_BYTE _ w2') as [x2 w3]. cbv beta iota.
  destruct (x2 =? 0); cbn [negb]; [|right; cbn; lia].
  pose proof (send_cmd_range RX_BYTE SEND_NACK w3) as Hb.
  destruct (send_cmd RX_BYTE SEND_NACK w3) as [x3 w4]. cbv beta iota.
  destruct (stop_con w4) as [[] w5]. cbn [fst snd] in *. left. lia.
Qed.

Lemma send_tx_absent (d : Z) (tr : list event) :
  0 <= d < 256 ->
  send_cmd TX_BYTE d (mkWorld [] tr) = (0xFF, mkWorld [] (tr ++ tx_turn d true)).
Proof. intros Hd. rewrite send_cmd_tx_byte_eq by exact Hd. reflexivity. Qed.

Lemma read_eeprom_absent (dev_addr data_addr : Z) (tr : list event) :
  data_addr <= 128 ->
  read_eeprom dev_addr data_addr (mkWorld [] tr) =
  (-7, mkWorld []
         (tr ++ tx_turn (u8 (Z.lor (Z.lor OPCODE_EEPROM_ACCESS dev_addr) 0))
                  true)).
Proof.
  intros Ha. unfold read_eeprom, load_address, bind.
  rewrite gtb_false by exact Ha.
  rewrite send_tx_absent by apply u8_range. reflexivity.
Qed.

(** X10: with no device on the line (nothing ever pulls it low) discovery is
    answered 0xFF, [read_mfr_id] returns 0, [read_eeprom] and [verified_read]
    of an address up to 128 return -7, the second after two attempts that
    each send only the device opcode, and [read_block] of a block in range
    returns -2 with the buffer as it was. *)
Theorem absent_device (dev_addr data_addr len : Z) (buffer : list Z)
        (tr : list event) :
  let w := mkWorld [] tr in
  let frame := tx_turn (u8 (Z.lor (Z.lor OPCODE_EEPROM_ACCESS dev_addr) 0)) true in
  fst (send_cmd DISCOVERY 0 w) = 0xFF /\
  fst (read_mfr_id dev_addr w) = 0 /\
  (data_addr <= 128 ->
   fst (read_eeprom dev_addr data_addr w) = -7 /\
   verified_read dev_addr data_addr w =
   (-7, mkWorld [] (tr ++ frame ++ frame))) /\
  (data_addr + len <= 128 ->
   fst (read_block dev_addr data_addr buffer len w) = (-2, buffer)).
Proof.
  intros w frame. subst w frame.
  split; [rewrite send_cmd_discovery_eq; reflexivity|].
  split; [unfold read_mfr_id, bind; rewrite send_cmd_discovery_eq; reflexivity|].
  split.
  - intros Ha. split; [rewrite read_eeprom_absent by exact Ha; reflexivity|].
    unfold verified_read, bind.
    rewrite read_eeprom_absent by exact Ha. cbv beta iota.
    rewrite read_eeprom_absent by exact Ha. cbv beta iota.
    change (-7 =? -7) with true. cbv iota. unfold ret.
    rewrite <- app_assoc. reflexivity.
  - intros Hsum. unfold read_block, bind. rewrite gtb_false by exact Hsum.
    rewrite send_cmd_discovery_eq. reflexivity.
Qed.

Lemma absent_device_witness :
  fst (read_block 0 0 [0; 0; 0] 3 (mkWorld [] [])) = (-2, [0; 0; 0]).
Proof.
  apply (absent_device 0 0 3 [0; 0; 0] []). lia.
Defined.

(** X11: the -1 of [verified_read] is unambiguous: it is returned exactly
    when the three reads are pairwise distinct, since [read_eeprom] never
    returns -1; any other result is the value of one of the first two reads,
    so a byte in [0, 255] or one of the codes -5 to -8. *)
Theorem verified_read_sentinel (dev_addr data_addr : Z) (w : world) :
  let r0 := read_eeprom dev_addr data_addr w in
  let r1 := read_eeprom dev_addr data_addr (snd r0) in
  let r2 := read_eeprom dev_addr data_addr (snd r1) in
  let v := fst (verified_read dev_addr data_addr w) in
  (v = -1 <-> fst r0 <> fst r1 /\ fst r1 <> fst r2 /\ fst r2 <> fst r0) /\
  (v <> -1 -> v = fst r0 \/ v = fst r1) /\
  (0 <= v <= 255 \/ v = -1 \/ -8 <= v <= -5).
Proof.
  intros r0 r1 r2 v. subst r0 r1 r2 v. unfold verified_read, bind, ret.
  pose proof (read_eeprom_code_set dev_addr data_addr w) as C0.
  destruct (read_eeprom dev_addr data_addr w) as [d0 w1].
  cbv beta iota. cbn [fst snd] in *.
  pose proof (read_eeprom_code_set dev_addr data_addr w1) as C1.
  destruct (read_eeprom dev_addr data_addr w1) as [d1 w2].
  cbv beta iota. cbn [fst snd] in *.
  pose proof (read_eeprom_code_set dev_addr data_addr w2) as C2.
  destruct (Z.eqb_spec d0 d1) as [E01|E01]; cbv beta iota.
  - cbn [fst]. repeat split; intros; lia.
  - destruct (read_eeprom dev_addr data_addr w2) as [d2 w3].
    cbv beta iota. cbn [fst snd] in *.
    destruct (Z.eqb_spec d1 d2) as [E12|E12];
      [|destruct (Z.eqb_spec d2 d0) as [E20|E20]];
      cbn [fst]; repeat split; intros; lia.
Qed.

(** X12: [verified_read] masks one bad sample: whenever two of the three
    reads return the same value, that value is the result, whichever of the
    three reads is the odd one. *)
Theorem verified_read_masks_one_fault (dev_addr data_addr v : Z) (w : world) :
  let r0 := read_eeprom dev_addr data_addr w in
  let r1 := read_eeprom dev_addr data_addr (snd r0) in
  let r2 := read_eeprom dev_addr data_addr (snd r1) in
  (fst r0 = v /\ fst r1 = v) \/ (fst r1 = v /\ fst r2 = v) \/
  (fst r0 = v /\ fst r2 = v) ->
  fst (verified_read dev_addr data_addr w) = v.
Proof.
  intros r0 r1 r2. subst r0 r1 r2. unfold verified_read, bind, ret.
  destruct (read_eeprom dev_addr data_addr w) as [d0 w1].
  cbv beta iota. cbn [fst snd].
  destruct (read_eeprom dev_addr data_addr w1) as [d1 w2].
  cbv beta iota. cbn [fst snd].
  destruct (Z.eqb_spec d0 d1) as [E01|E01]; cbv beta iota.
  - cbn [fst]. intros H. lia.
  - destruct (read_eeprom dev_addr data_addr w2) as [d2 w3].
    cbv beta iota. cbn [fst snd].
    destruct (Z.eqb_spec d1 d2) as [E12|E12];
      [|destruct (Z.eqb_spec d2 d0) as [E20|E20]];
      cbn [fst]; intros H; lia.
Qed.

Lemma verified_read_masks_one_fault_witness :
  fst (verified_read 0 0x10 (sampling [9; 6; 6])) = 6.
Proof.
  apply (verified_read_masks_one_fault 0 0x10 6 (sampling [9; 6; 6])).
  right. left. split; vm_compute; reflexivity.
Defined.

(** ** Block read: outcomes and the buffer *)

Lemma read_block_loop_frame (dev_addr data_addr : Z) (n : nat) :
  forall (i0 : nat) (buffer : list Z) (w : world),
    let r := read_block_loop n dev_addr data_addr (Z.of_nat i0) buffer w in
    length (snd (fst r)) = length buffer /\
    (forall j, (j < i0 \/ i0 + n <= j)%nat -> snd (fst r) !! j = buffer !! j).
Proof.
  induction n as [|n IH]; intros i0 buffer w r; subst r.
  - cbn. split; [reflexivity | intros; reflexivity].
  - cbn [read_block_loop]. unfold bind.
    destruct (verified_read _ _ w) as [res w1]. cbv beta iota.
    destruct (res <? 0); [cbn; split; [reflexivity | intros; reflexivity]|].
    rewrite Nat2Z.id.
    replace (Z.of_nat i0 + 1) with (Z.of_nat (S i0)) by lia.
    destruct (IH (S i0) (<[i0 := u8 res]> buffer) w1) as [Hl Hout].
    rewrite length_insert in Hl. split; [exact Hl|].
    intros j Hj. rewrite Hout by lia. apply list_lookup_insert_ne. lia.
Qed.

Lemma read_block_loop_abort (dev_addr data_addr : Z) (w0 : world) (n : nat) :
  forall (i0 k : nat) (buffer : list Z),
    (i0 <= k < i0 + n)%nat ->
    (forall j, (i0 <= j < k)%nat -> 0 <= loop_read j dev_addr data_addr w0) ->
    loop_read k dev_addr data_addr w0 < 0 ->
    exists buffer',
      read_block_loop n dev_addr data_addr (Z.of_nat i0) buffer
        (loop_world i0 dev_addr data_addr w0) =
      ((-3, buffer'), loop_world (S k) dev_addr data_addr w0) /\
      length buffer' = length buffer /\
      (forall j, (i0 <= j < k)%nat -> (j < length buffer)%nat ->
                 buffer' !! j = Some (loop_read j dev_addr data_addr w0)) /\
      (forall j, (j < i0 \/ k <= j)%nat -> buffer' !! j = buffer !! j).
Proof.
  induction n as [|n IH]; intros i0 k buffer Hk Hok Hfail; [lia|].
  cbn [read_block_loop]. unfold bind. rewrite loop_step.
  destruct (decide (k = i0)) as [->|Hne].
  - replace (loop_read i0 dev_addr data_addr w0 <? 0) with true
      by (symmetry; apply Z.ltb_lt; exact Hfail).
    exists buffer. unfold ret.
    repeat split; intros; try lia; reflexivity.
  - assert (Hres : 0 <= loop_read i0 dev_addr data_addr w0) by (apply Hok; lia).
    pose proof (verified_read_range dev_addr (u8 (data_addr + Z.of_nat i0))
                  (loop_world i0 dev_addr data_addr w0)) as Hrange.
    fold (loop_read i0 dev_addr data_addr w0) in Hrange.
    replace (loop_read i0 dev_addr data_addr w0 <? 0) with false
      by (symmetry; apply Z.ltb_ge; exact Hres).
    rewrite u8_small by lia. rewrite Nat2Z.id.
    replace (Z.of_nat i0 + 1) with (Z.of_nat (S i0)) by lia.
    destruct (IH (S i0) k (<[i0 := loop_read i0 dev_addr data_addr w0]> buffer))
      as (buffer' & Hrun & Hlen & Hin & Hout);
      [lia | intros j Hj; apply Hok; lia | exact Hfail |].
    exists buffer'. rewrite length_insert in Hlen.
    split; [exact Hrun|]. split; [exact Hlen|]. split.
    + intros j Hj Hjlen. destruct (decide (j = i0)) as [->|Hji].
      * rewrite Hout by lia. apply list_lookup_insert_eq. exact Hjlen.
      * apply Hin; [lia|]. rewrite length_insert. exact Hjlen.
    + intros j Hj. rewrite Hout by lia. apply list_lookup_insert_ne. lia.
Qed.

(** X13: [read_block] returns one of 1, -1, -2, -3.  It returns -1 exactly
    when the block exceeds 128, leaving buffer and world untouched, and -2
    exactly when the block is in range and discovery is not acknowledged, in
    which case no address is read and the buffer is as it was. *)
Theorem read_block_outcomes (dev_addr data_addr len : Z) (buffer : list Z)
        (w : world) :
  let r := read_block dev_addr data_addr buffer len w in
  let code := fst (fst r) in
  (code = 1 \/ code = -1 \/ code = -2 \/ code = -3) /\
  (code = -1 <-> 128 < data_addr + len) /\
  (code = -2 <->
   data_addr + len <= 128 /\ fst (send_cmd DISCOVERY 0 w) <> 0) /\
  (code = -1 -> r = ((-1, buffer), w)) /\
  (code = -2 -> r = ((-2, buffer), snd (send_cmd DISCOVERY 0 w))).
Proof.
  intros r code. subst code r. unfold read_block.
  destruct (Z.gtb_spec (data_addr + len) 128) as [Hgt|Hle].
  { cbn [ret fst snd]. repeat split; intros; first [lia | reflexivity]. }
  unfold bind. destruct (send_cmd DISCOVERY 0 w) as [ack w0].
  cbv beta iota. cbn [fst snd].
  destruct (Z.eqb_spec ack 0) as [E|E]; cbn [negb].
  - destruct (read_block_loop_code (Z.to_nat len) dev_addr data_addr 0 buffer w0)
      as [H|H]; rewrite H; repeat split; intros; lia.
  - cbn [ret fst snd]. repeat split; intros; first [lia | reflexivity].
Qed.

(** X14: whatever its outcome, [read_block] keeps the length of the buffer and
    changes no cell at index [len] or beyond. *)
Theorem read_block_frame (dev_addr data_addr len : Z) (buffer : list Z)
        (w : world) :
  let buffer' := snd (fst (read_block dev_addr data_addr buffer len w)) in
  length buffer' = length buffer /\
  (forall j, (Z.to_nat len <= j)%nat -> buffer' !! j = buffer !! j).
Proof.
  intros buffer'. subst buffer'. unfold read_block.
  destruct (data_addr + len >? 128); [split; [reflexivity | intros; reflexivity]|].
  unfold bind. destruct (send_cmd DISCOVERY 0 w) as [ack w0]. cbv beta iota.
  destruct (negb (ack =? 0)); [split; [reflexivity | intros; reflexivity]|].
  destruct (read_block_loop_frame dev_addr data_addr (Z.to_nat len) 0 buffer w0)
    as [Hl Hout].
  split; [exact Hl|]. intros j Hj. apply Hout. lia.
Qed.

(** X15: when the verified read of cell [k] is the first to fail,
    [read_block] returns -3 with the cells before [k] already overwritten by
    the values read and every cell from [k] on as it was: the buffer then
    holds partial data. *)
Theorem read_block_abort_buffer (dev_addr data_addr len : Z) (buffer : list Z)
        (w : world) (k : nat) :
  data_addr + len <= 128 ->
  (Z.to_nat len <= length buffer)%nat ->
  fst (send_cmd DISCOVERY 0 w) = 0 ->
  let w0 := snd (send_cmd DISCOVERY 0 w) in
  (k < Z.to_nat len)%nat ->
  (forall j, (j < k)%nat -> 0 <= loop_read j dev_addr data_addr w0) ->
  loop_read k dev_addr data_addr w0 < 0 ->
  exists buffer',
    read_block dev_addr data_addr buffer len w =
    ((-3, buffer'), loop_world (S k) dev_addr data_addr w0) /\
    length buffer' = length buffer /\
    (forall j, (j < k)%nat ->
               buffer' !! j = Some (loop_read j dev_addr data_addr w0)) /\
    (forall j, (k <= j)%nat -> buffer' !! j = buffer !! j).
Proof.
  intros Hsum Hbuf Hack w0 Hk Hok Hfail.
  rewrite read_block_enters by assumption. fold w0.
  destruct (read_block_loop_abort dev_addr data_addr w0 (Z.to_nat len) 0 k buffer)
    as (buffer' & Hrun & Hl & Hin & Hout);
    [lia | intros j Hj; apply Hok; lia | exact Hfail |].
  exists buffer'. cbn [loop_world Z.of_nat] in Hrun.
  split; [exact Hrun|]. split; [exact Hl|]. split.
  - intros j Hj. apply Hin; lia.
  - intros j Hj. apply Hout. lia.
Qed.

Lemma read_block_abort_buffer_witness :
  exists buffer',
    read_block 0 0 [0; 0] 2 (mkWorld (false :: answer 9 ++ answer 9) []) =
    ((-3, buffer'),
     loop_world 2 0 0
       (snd (send_cmd DISCOVERY 0 (mkWorld (false :: answer 9 ++ answer 9) [])))) /\
    length buffer' = 2%nat /\
    (forall j, (j < 1)%nat ->
       buffer' !! j =
       Some (loop_read j 0 0
               (snd (send_cmd DISCOVERY 0
                       (mkWorld (false :: answer 9 ++ answer 9) []))))) /\
    (forall j, (1 <= j)%nat -> buffer' !! j = [0; 0] !! j).
Proof.
  apply (read_block_abort_buffer 0 0 2 [0; 0]
           (mkWorld (false :: answer 9 ++ answer 9) []) 1).
  - lia.
  - cbn. lia.
  - vm_compute. reflexivity.
  - cbn. lia.
  - intros j Hj. destruct j as [|j]; [vm_compute; discriminate | lia].
  - vm_compute. reflexivity.
Defined.

(** ** Block read and manufacturer ID against a device *)







(** ** The JSON key test *)

Lemma strncmp_zero_iff (b : list Z) :
  Forall (fun c => c <> 0) b ->
  forall a, strncmp a b (length b) = 0 <-> take (length b) a = b.
Proof.
  induction 1 as [|c b Hc Hb IH]; intros a.
  - cbn. split; intros _; [apply take_0 | reflexivity].
  - cbn [length strncmp hd tl]. destruct a as [|x a]; cbn [hd tl take].
    + replace (0 =? c) with false by (symmetry; apply Z.eqb_neq; lia).
      split; [lia | discriminate].
    + destruct (Z.eqb_spec x c) as [->|Hne].
      * replace (c =? 0) with false by (symmetry; apply Z.eqb_neq; lia).
        rewrite IH. split; intros H; congruence.
      * split; [lia | intros H; congruence].
Qed.

(** X18: [jsoneq] returns 0 or -1, and returns 0 exactly when the token is a
    string token and the text between its two offsets is, character for
    character, the key [s]: a longer or shorter token, or another kind of
    token, never matches. *)
Theorem jsoneq_exact (json : list Z) (tok : jsmntok_t) (s : list Z) :
  Forall (fun c => c <> 0) s ->
  0 <= tok_start tok <= tok_end tok ->
  tok_end tok <= strlen json ->
  (jsoneq json tok s = 0 \/ jsoneq json tok s = -1) /\
  (jsoneq json tok s = 0 <->
   tok_type tok = JSMN_STRING /\
   take (Z.to_nat (tok_end tok - tok_start tok))
        (drop (Z.to_nat (tok_start tok)) json) = s).
Proof.
  intros Hs Hse Hend. unfold jsoneq, strlen in *.
  destruct (tok_type tok); cbn [is_JSMN_STRING andb];
    try (split; [right; reflexivity | split; [lia | intros [? _]; discriminate]]).
  destruct (Z.eqb_spec (Z.of_nat (length s)) (tok_end tok - tok_start tok))
    as [Hlen|Hlen]; cbn [andb].
  - rewrite <- Hlen, Nat2Z.id.
    destruct (Z.eqb_spec (strncmp (drop (Z.to_nat (tok_start tok)) json) s
                            (length s)) 0) as [E|E].
    + split; [left; reflexivity|]. split; [|reflexivity].
      intros _. split; [reflexivity|]. apply strncmp_zero_iff; assumption.
    + split; [right; reflexivity|]. split; [lia|].
      intros [_ H]. exfalso. apply E. apply strncmp_zero_iff; assumption.
  - split; [right; reflexivity|]. split; [lia|].
    intros [_ H]. exfalso. apply Hlen.
    rewrite <- H at 1. rewrite length_take, length_drop. lia.
Qed.

Lemma jsoneq_exact_witness :
  (jsoneq [34; 108; 101; 110; 34] (mkTok JSMN_STRING 1 4) [108; 101; 110] = 0 \/
   jsoneq [34; 108; 101; 110; 34] (mkTok JSMN_STRING 1 4) [108; 101; 110] = -1) /\
  (jsoneq [34; 108; 101; 110; 34] (mkTok JSMN_STRING 1 4) [108; 101; 110] = 0 <->
   JSMN_STRING = JSMN_STRING /\
   take (Z.to_nat (4 - 1)) (drop (Z.to_nat 1) [34; 108; 101; 110; 34]) =
   [108; 101; 110]).
Proof.
  apply (jsoneq_exact [34; 108; 101; 110; 34] (mkTok JSMN_STRING 1 4)
           [108; 101; 110]).
  - repeat (constructor; [lia|]). constructor.
  - cbn [tok_start tok_end]. lia.
  - unfold strlen. cbn [tok_end length]. lia.
Defined.

(** ** The line reader of [main] *)

Lemma c_string_prefix (q r : list Z) :
  Forall (fun c => c <> 0) q -> c_string (q ++ 0 :: r) = q.
Proof.
  induction 1 as [|c q Hc Hq IH]; [reflexivity|].
  cbn [app c_string].
  replace (c =? 0) with false by (symmetry; apply Z.eqb_neq; exact Hc).
  now rewrite IH.
Qed.

Lemma main_step_ok (t ch : Z) (st : reader) :
  reader_ok st -> reader_ok (main_step t ch st).
Proof.
  intros [Hlen Hidx]. unfold main_step, reader_ok.
  destruct (negb (ch =? t)); [|cbn; auto].
  destruct ((ch =? 10) || (ch =? 13)).
  - destruct (rd_index st >? 0); cbn [rd_buffer rd_index];
      rewrite length_insert; split; (assumption || lia).
  - unfold BUFFER_SIZE. destruct (Z.ltb_spec (rd_index st) (256 - 1));
      cbn [rd_buffer rd_index]; rewrite ?length_insert; split;
        (assumption || lia).
Qed.

Lemma main_loop_ok (t : Z) (chs : list Z) :
  forall st, reader_ok st -> reader_ok (main_loop t chs st).
Proof.
  unfold main_loop. induction chs as [|ch chs IH]; intros st Hst; [exact Hst|].
  cbn [fold_left]. apply IH, main_step_ok, Hst.
Qed.

Lemma main_loop_chars (t : Z) (chs : list Z) :
  forall (st : reader) (p : list Z),
    reader_ok st ->
    rd_index st = Z.of_nat (length p) ->
    take (length p) (rd_buffer st) = p ->
    Forall (fun c => 0 < c < 256 /\ c <> 10 /\ c <> 13) (typed t chs) ->
    let st' := main_loop t chs st in
    let q := take 255 (p ++ typed t chs) in
    rd_handled st' = rd_handled st /\
    rd_index st' = Z.of_nat (length q) /\
    take (length q) (rd_buffer st') = q.
Proof.
  induction chs as [|ch chs IH]; intros st p Hok Hidx Hp Hchars st' q;
    subst st' q.
  - cbn [main_loop fold_left]. unfold typed. cbn [filter list_filter].
    rewrite app_nil_r. destruct Hok as [_ Hi].
    rewrite take_ge by lia. auto.
  - unfold main_loop. cbn [fold_left]. fold (main_loop t chs (main_step t ch st)).
    pose proof (main_step_ok t ch st Hok) as Hok1.
    unfold typed in *. destruct (decide (ch = t)) as [->|Hne].
    + rewrite filter_cons_False in * by (intros H; now apply H).
      assert (E : main_step t t st =
                  mkReader (rd_buffer st) (rd_index st) (rd_echoed st)
                           (negb (rd_led st)) (rd_handled st)).
      { unfold main_step. rewrite Z.eqb_refl. reflexivity. }
      rewrite E in *.
      apply (IH _ p Hok1 Hidx Hp Hchars).
    + rewrite filter_cons_True in * by exact Hne.
      inversion Hchars as [|c l (Hc & H10 & H13) Hrest]; subst c l.
      destruct Hok as [Hlen Hi].
      unfold main_step in *.
      replace (ch =? t) with false in * by (symmetry; apply Z.eqb_neq; exact Hne).
      replace (ch =? 10) with false in * by (symmetry; apply Z.eqb_neq; exact H10).
      replace (ch =? 13) with false in * by (symmetry; apply Z.eqb_neq; exact H13).
      cbn [negb orb] in *. unfold BUFFER_SIZE in *.
      destruct (Z.ltb_spec (rd_index st) (256 - 1)) as [Hlt|Hge].
      * rewrite u8_small in * by lia.
        set (st1 := mkReader _ _ _ _ _) in *.
        destruct (IH st1 (p ++ [ch])) as (H1 & H2 & H3).
        -- exact Hok1.
        -- unfold st1. cbn [rd_index]. rewrite length_app. cbn [length]. lia.
        -- unfold st1. cbn [rd_buffer]. rewrite length_app. cbn [length].
           rewrite Hidx, Nat2Z.id, Nat.add_1_r.
           rewrite (take_S_r _ _ ch)
             by (apply list_lookup_insert_eq; lia).
           rewrite take_insert_ge by lia. now rewrite Hp.
        -- exact Hrest.
        -- rewrite <- app_assoc in H2, H3. cbn [app] in H2, H3.
           split; [exact H1|]. split; [exact H2 | exact H3].
      * set (st1 := mkReader _ _ _ _ _) in *.
        assert (Hp255 : length p = 255%nat) by lia.
        destruct (IH st1 p Hok1 Hidx Hp Hrest) as (H1 & H2 & H3).
        rewrite (take_app_length' p _ 255) by lia.
        rewrite (take_app_length' p _ 255) in H2, H3 by lia.
        split; [exact H1|]. split; [exact H2 | exact H3].
Qed.

Lemma main_step_blank (t nl : Z) (st : reader) :
  rd_index st = 0 -> nl = 10 \/ nl = 13 ->
  rd_handled (main_step t nl st) = rd_handled st /\
  rd_index (main_step t nl st) = 0.
Proof.
  intros Hidx Hnl. unfold main_step. rewrite Hidx.
  destruct (negb (nl =? t)); [|cbn; auto].
  replace ((nl =? 10) || (nl =? 13)) with true
    by (destruct Hnl as [-> | ->]; reflexivity).
  cbn. auto.
Qed.

Lemma main_loop_blank (t : Z) (nls : list Z) :
  Forall (fun c => c = 10 \/ c = 13) nls ->
  forall st,
    rd_index st = 0 ->
    rd_handled (main_loop t nls st) = rd_handled st /\
    rd_index (main_loop t nls st) = 0.
Proof.
  unfold main_loop.
  induction 1 as [|nl nls Hnl Hnls IH]; intros st Hidx; [auto|].
  cbn [fold_left].
  destruct (main_step_blank t nl st Hidx Hnl) as [H1 H2].
  destruct (IH _ H2) as [H3 H4]. rewrite H3, H1. auto.
Qed.

Lemma main_loop_app (t : Z) (a b : list Z) (st : reader) :
  main_loop t (a ++ b) st = main_loop t b (main_loop t a st).
Proof. unfold main_loop. apply fold_left_app. Qed.

(** X19: the loop of [main] keeps its line buffer at full size and its write
    index between 0 and 255, whatever characters and timeouts come in and in
    whatever order: every store, the terminator included, falls inside the
    256 cells. *)
Theorem main_loop_in_bounds (PICO_ERROR_TIMEOUT : Z) (chs : list Z)
        (st : reader) :
  reader_ok st -> reader_ok (main_loop PICO_ERROR_TIMEOUT chs st).
Proof. apply main_loop_ok. Qed.

Lemma main_loop_in_bounds_witness :
  reader_ok (main_loop (-1) [65; -1; 10; 13; 66]
               (mkReader (repeat 0 256) 0 [] false [])).
Proof.
  apply (main_loop_in_bounds (-1) [65; -1; 10; 13; 66]).
  split; [reflexivity | cbn; lia].
Defined.

(** X20: starting from an empty line, when the characters typed (timeouts
    between them are skipped) are not line ends or NUL and at least one is
    typed, the line ends that follow (LF, CR, CR LF, any run of them) hand
    exactly one command to [handle_command]: the first 255 characters typed,
    anything beyond being dropped; the index is back at 0 afterwards. *)
Theorem main_loop_line (PICO_ERROR_TIMEOUT : Z) (chs nls : list Z)
        (st : reader) :
  reader_ok st ->
  rd_index st = 0 ->
  Forall (fun c => 0 < c < 256 /\ c <> 10 /\ c <> 13)
         (typed PICO_ERROR_TIMEOUT chs) ->
  typed PICO_ERROR_TIMEOUT chs <> [] ->
  Forall (fun c => c = 10 \/ c = 13) nls ->
  typed PICO_ERROR_TIMEOUT nls <> [] ->
  rd_handled (main_loop PICO_ERROR_TIMEOUT (chs ++ nls) st) =
  rd_handled st ++ [take 255 (typed PICO_ERROR_TIMEOUT chs)] /\
  rd_index (main_loop PICO_ERROR_TIMEOUT (chs ++ nls) st) = 0.
Proof.
  intros Hok Hidx Hchars Hne Hnls Hnl.
  set (t := PICO_ERROR_TIMEOUT) in *.
  rewrite main_loop_app.
  pose proof (main_loop_ok t chs st Hok) as Hok1.
  destruct (main_loop_chars t chs st [] Hok Hidx eq_refl Hchars)
    as (H1 & H2 & H3).
  cbn [app] in H2, H3.
  set (st1 := main_loop t chs st) in *.
  set (q := take 255 (typed t chs)) in *.
  assert (Hq : (0 < length q)%nat).
  { unfold q. destruct (typed t chs); [congruence|]. cbn. lia. }
  assert (Hq0 : Forall (fun c => c <> 0) q).
  { unfold q. apply Forall_take. eapply Forall_impl; [exact Hchars|].
    cbn. intros c Hc. lia. }
  clearbody st1 q. clear Hchars Hne Hok Hidx.
  revert st1 Hok1 H1 H2 H3.
  induction Hnls as [|nl nls Hnl1 Hnls IH]; intros st1 Hok1 H1 H2 H3;
    [exfalso; apply Hnl; reflexivity|].
  unfold main_loop. cbn [fold_left]. fold (main_loop t nls (main_step t nl st1)).
  destruct (decide (nl = t)) as [->|Hnt].
  - assert (E : main_step t t st1 =
                mkReader (rd_buffer st1) (rd_index st1) (rd_echoed st1)
                         (negb (rd_led st1)) (rd_handled st1)).
    { unfold main_step. rewrite Z.eqb_refl. reflexivity. }
    rewrite E. apply IH.
    + unfold typed in *. rewrite filter_cons_False in Hnl
        by (intros H; now apply H). exact Hnl.
    + destruct Hok1. split; assumption.
    + exact H1.
    + exact H2.
    + exact H3.
  - destruct Hok1 as [Hlen Hi].
    assert (E : main_step t nl st1 =
                mkReader (<[length q := 0]> (rd_buffer st1)) 0
                         (rd_echoed st1 ++ [nl]) (negb (rd_led st1))
                         (rd_handled st1
                          ++ [c_string (<[length q := 0]> (rd_buffer st1))])).
    { unfold main_step.
      replace (nl =? t) with false by (symmetry; apply Z.eqb_neq; exact Hnt).
      replace ((nl =? 10) || (nl =? 13)) with true
        by (destruct Hnl1 as [-> | ->]; reflexivity).
      cbn [negb]. rewrite H2, Nat2Z.id.
      replace (Z.of_nat (length q) >? 0) with true
        by (symmetry; apply Z.gtb_lt; lia).
      reflexivity. }
    rewrite E.
    destruct (main_loop_blank t nls Hnls
                (mkReader (<[length q := 0]> (rd_buffer st1)) 0
                   (rd_echoed st1 ++ [nl]) (negb (rd_led st1))
                   (rd_handled st1
                    ++ [c_string (<[length q := 0]> (rd_buffer st1))]))
                eq_refl) as [H4 H5].
    rewrite H4, H5. cbn [rd_handled]. split; [|reflexivity].
    rewrite H1. do 2 f_equal.
    assert (Hlt : (length q < length (rd_buffer st1))%nat) by lia.
    rewrite <- (take_drop_middle (<[length q := 0]> (rd_buffer st1))
                  (length q) 0)
      by (apply list_lookup_insert_eq; exact Hlt).
    rewrite take_insert_ge by lia. rewrite H3.
    apply c_string_prefix, Hq0.
Qed.

Lemma main_loop_line_witness :
  rd_handled (main_loop (-1) ([123; -1; 125] ++ [13; 10])
                (mkReader (repeat 7 256) 0 [] false [])) =
  [] ++ [take 255 (typed (-1) [123; -1; 125])] /\
  rd_index (main_loop (-1) ([123; -1; 125] ++ [13; 10])
              (mkReader (repeat 7 256) 0 [] false [])) = 0.
Proof.
  apply (main_loop_line (-1) [123; -1; 125] [13; 10]
           (mkReader (repeat 7 256) 0 [] false [])).
  - split; [reflexivity | cbn; lia].
  - reflexivity.
  - vm_compute. repeat constructor; try lia; discriminate.
  - vm_compute. discriminate.
  - repeat constructor; lia.
  - vm_compute. discriminate.
Defined.
